(** * comparer-cli: a shallow embedding of the command-line client

    The program is one Python file, [comparer-cli.py]: an [ApiClient] class
    wrapping a [requests] session, and a [click] command group with seven
    subcommands.  Everything the program does to the outside (the calls
    of the session, the file it reads, the lines it prints, the random draws of
    [random.sample]) goes through an explicit [world] and an explicit
    [state], so that one run is a pure function of both.

    Modelling conventions
    - JSON values are the inductive [json]; a Python [dict] is an association
      list in insertion order with unique keys.  Numbers are integers.
    - Python text is a Rocq [string], read as ASCII; [str.lower] is [lower].
      On other text [str.lower] does more than [lower]; a property that
      rests on case folding says that its text is ASCII.
    - One call of the [requests] session is one [request]: the arguments the
      program gives to [session.get] or [session.post].  What the library
      makes of them on the wire, and whether it sends anything at all, is
      the world's answer to the call.
    - A Python exception is an [exn]: its class and the text of [str(e)].
    - Code that may raise lives in the monad [M]: state passing plus an
      exception result. *)

From Stdlib Require Import ZArith String Ascii List Bool Lia DecimalString.
From stdpp Require Import base tactics option list numbers strings gmap.
Import ListNotations.
Local Open Scope string_scope.
Local Open Scope list_scope.
Local Open Scope nat_scope.

(** ** JSON values and Python dictionaries *)

Set Warnings "-register-all".

Inductive json : Type :=
| JNull
| JBool (b : bool)
| JInt (z : Z)
| JStr (s : string)
| JArr (items : list json)
| JObj (fields : list (string * json)).

(** A [dict] with text keys, in insertion order. *)
Abbreviation dict := (list (string * json)).

(** [d.get(k)]: the value stored under [k], if any. *)
Fixpoint dict_get (k : string) (d : dict) : option json :=
  match d with
  | [] => None
  | (k', v) :: rest => if String.eqb k k' then Some v else dict_get k rest
  end.

(** [d[k] = v]: an existing key keeps its position, a new key goes last. *)
Fixpoint dict_set (k : string) (v : json) (d : dict) : dict :=
  match d with
  | [] => [(k, v)]
  | (k', v') :: rest =>
      if String.eqb k k' then (k', v) :: rest else (k', v') :: dict_set k v rest
  end.

(** [d.update(other)]: the entries of [other], set one after the other. *)
Definition dict_update (d other : dict) : dict :=
  fold_left (fun acc kv => dict_set (fst kv) (snd kv) acc) other d.

Definition dict_keys (d : dict) : list string := map fst d.

(** Python truth value of a JSON value ([if not models]). *)
Definition truthy (v : json) : bool :=
  match v with
  | JNull => false
  | JBool b => b
  | JInt z => negb (Z.eqb z 0)
  | JStr s => negb (String.eqb s "")
  | JArr l => match l with [] => false | _ => true end
  | JObj d => match d with [] => false | _ => true end
  end.

(** [type(v).__name__] *)
Definition type_name (v : json) : string :=
  match v with
  | JNull => "NoneType"
  | JBool _ => "bool"
  | JInt _ => "int"
  | JStr _ => "str"
  | JArr _ => "list"
  | JObj _ => "dict"
  end.

(** ** Text: [str.lower] and the [in] operator on strings *)

(** [str.lower] as it acts on ASCII text: the capital letters A to Z go to
    the small ones and every other character stays.  On text with other
    characters Python folds more than that, so the properties that speak of
    letter case are stated for ASCII text. *)

Definition is_upper (c : ascii) : bool :=
  (65 <=? nat_of_ascii c) && (nat_of_ascii c <=? 90).

Definition lower_char (c : ascii) : ascii :=
  if is_upper c then ascii_of_nat (nat_of_ascii c + 32) else c.

Fixpoint lower (s : string) : string :=
  match s with
  | EmptyString => EmptyString
  | String c rest => String (lower_char c) (lower rest)
  end.

Fixpoint starts_with (p s : string) : bool :=
  match p, s with
  | EmptyString, _ => true
  | String a p', String b s' => Ascii.eqb a b && starts_with p' s'
  | String _ _, EmptyString => false
  end.

(** [p in s] for two strings. *)
Fixpoint str_in (p s : string) : bool :=
  starts_with p s ||
  match s with
  | EmptyString => false
  | String _ s' => str_in p s'
  end.

(** [str(n)] for a non-negative integer. *)
Definition str_of_nat (n : nat) : string :=
  NilZero.string_of_uint (Nat.to_uint n).

(** ** Exceptions *)

Inductive exn_class : Type :=
| RequestError          (* requests.ConnectionError, Timeout, ... *)
| HTTPError             (* raised by raise_for_status *)
| ResponseJSONError     (* requests.exceptions.JSONDecodeError *)
| JSONDecodeError       (* json.JSONDecodeError *)
| FileNotFoundError
| IsADirectoryError
| PermissionError
| UnicodeDecodeError    (* a ValueError, not a json.JSONDecodeError *)
| KeyError
| AttributeError
| TypeError
| ValueError
| IndexError
| ClickException
| BadParameter          (* click usage error, raised while parsing arguments *)
| Unending.             (* no exception: the mark of a loop that does not end;
                           no [except] clause matches it *)

Record exn : Type := Exn { exn_cls : exn_class; exn_str : string }.

(** [isinstance(e, requests.RequestException)] *)
Definition is_request_exception (e : exn) : bool :=
  match exn_cls e with
  | RequestError | HTTPError | ResponseJSONError => true
  | _ => false
  end.

(** [isinstance(e, (json.JSONDecodeError, FileNotFoundError))]; the decode
    error of [requests] derives from the one of [json]. *)
Definition is_file_error (e : exn) : bool :=
  match exn_cls e with
  | JSONDecodeError | ResponseJSONError | FileNotFoundError => true
  | _ => false
  end.

(** ** The world outside the process *)

Inductive http_method : Type := GET | POST.

(** One call of the session, [session.get(url)] or
    [session.post(url, json=payload)]: its arguments and the header the
    session was set up with. *)
Record request : Type := Request {
  req_method : http_method;
  req_url : string;                   (* the URL as the program builds it *)
  req_api_key : option string;        (* the X-API-Key header of the session *)
  req_json : option json              (* the json= argument; None when it is
                                         absent or is Python's None *)
}.

(** The response a call returns, after the library has followed redirects. *)
Record response : Type := Response {
  status_code : nat;
  reason : string;
  url : string;                       (* response.url, as the library reports it *)
  text : string
}.

(** The outcome of one call of the session. *)
Inductive http_result : Type :=
| TransportFailure (cause : string)   (* the call raises a requests exception:
                                         no connection, a URL or header the
                                         library refuses, too many redirects *)
| Reply (r : response).

(** What a path names. *)
Inductive file_state : Type :=
| Missing
| Directory
| Unreadable                          (* a file the user may not read *)
| Undecodable (why : string)          (* a file whose bytes are not text in the
                                         encoding [open] uses *)
| Regular (contents : string).        (* a file that reads as this text *)

Inductive parse_result : Type :=
| Parsed (v : json)
| Malformed (why : string).

Record world : Type := World {
  env_api_key : option string;              (* os.getenv('COMPARER_API_KEY') *)
  http : request -> http_result;            (* the remote service *)
  fs : string -> file_state;                (* the file system *)
  json_loads : string -> parse_result;      (* the json decoder *)
  rand : nat -> nat;                        (* the i-th raw draw of the generator *)
  patience : nat                            (* the draws after which a selection
                                               that keeps redrawing counts as
                                               not ending *)
}.

(** ** What a run prints *)

Inductive out_item : Type :=
| Echo (line : string)
    (* click.echo(line) *)
| EchoTable (headers : list string) (rows : list (list json))
    (* click.echo(tabulate(rows, headers=headers, tablefmt="grid")) *)
| EchoJson (v : json) (indent : nat).
    (* click.echo(json.dumps(v, indent=indent)), print(json.dumps(...)) *)

(** ** Process state and the exception monad *)

Record state : Type := State {
  base_url : string;            (* the global BASE_URL *)
  out : list out_item;          (* standard output so far *)
  log : list request;           (* calls of the session made so far *)
  heap : list json              (* dict objects that are mutated, by identity *)
}.

Definition initial_state : state :=
  State "https://agentcomparer.com" [] [] [].

Inductive result (A : Type) : Type :=
| Ok (a : A)
| Raise (e : exn).
Arguments Ok {A} a.
Arguments Raise {A} e.

Definition M (A : Type) : Type := state -> result A * state.

Definition ret {A} (a : A) : M A := fun st => (Ok a, st).

Definition raise {A} (c : exn_class) (msg : string) : M A :=
  fun st => (Raise (Exn c msg), st).

Definition bind {A B} (m : M A) (k : A -> M B) : M B :=
  fun st =>
    match m st with
    | (Ok a, st') => k a st'
    | (Raise e, st') => (Raise e, st')
    end.

Notation "x <~ m ;; k" := (bind m (fun x => k))
  (at level 100, m at next level, right associativity).
Notation "m ;;; k" := (bind m (fun _ => k))
  (at level 100, right associativity).

(** [try: body except ...]: [handler e] is the first matching clause. *)
Definition try_except {A} (body : M A) (handler : exn -> option (M A)) : M A :=
  fun st =>
    match body st with
    | (Ok a, st') => (Ok a, st')
    | (Raise e, st') =>
        match handler e with
        | Some h => h st'
        | None => (Raise e, st')
        end
    end.

Definition echo (item : out_item) : M unit :=
  fun st => (Ok tt, State (base_url st) (out st ++ [item]) (log st) (heap st)).

Definition get_base_url : M string := fun st => (Ok (base_url st), st).

Definition set_base_url (u : string) : M unit :=
  fun st => (Ok tt, State u (out st) (log st) (heap st)).

(** ** Transport client: the class [ApiClient] *)

(** [self.session.get(url)] and [self.session.post(url, json=payload)]: the
    call is made, then either raises or returns a response. *)
Definition session_send (w : world) (key : option string)
    (meth : http_method) (path : string) (payload : option json) : M response :=
  fun st =>
    let req := Request meth (base_url st ++ path) key payload in
    let st' := State (base_url st) (out st) (log st ++ [req]) (heap st) in
    match http w req with
    | TransportFailure cause => (Raise (Exn RequestError cause), st')
    | Reply r => (Ok r, st')
    end.

(** The message of the [HTTPError]; it names the URL of the response. *)
Definition http_error_msg (r : response) : string :=
  str_of_nat (status_code r) ++
  (if status_code r <? 500 then " Client Error: " else " Server Error: ") ++
  reason r ++ " for url: " ++ url r.

(** [response.raise_for_status()]: raises for 4xx and 5xx. *)
Definition raise_for_status (r : response) : M unit :=
  if (400 <=? status_code r) && (status_code r <? 600)
  then raise HTTPError (http_error_msg r)
  else ret tt.

(** [response.json()] *)
Definition response_json (w : world) (r : response) : M json :=
  match json_loads w (text r) with
  | Parsed v => ret v
  | Malformed why => raise ResponseJSONError why
  end.

Definition call (w : world) (key : option string)
    (meth : http_method) (path : string) (payload : option json) : M json :=
  response <~ session_send w key meth path payload ;;
  raise_for_status response ;;;
  response_json w response.

Definition get_models (w : world) (key : option string) : M json :=
  call w key GET "/api/models/list" None.

Definition get_stats (w : world) (key : option string) : M json :=
  call w key GET "/api/models/stats" None.

(** Iterating a JSON value in a [for] loop or a comprehension: a list yields
    its items, a dict its keys, a string its characters. *)
Definition py_iter (v : json) : M (list json) :=
  match v with
  | JArr l => ret l
  | JObj d => ret (map JStr (dict_keys d))
  | JStr s => ret (map (fun c => JStr (String c EmptyString)) (list_ascii_of_string s))
  | JNull => raise TypeError "'NoneType' object is not iterable"
  | JBool _ => raise TypeError "'bool' object is not iterable"
  | JInt _ => raise TypeError "'int' object is not iterable"
  end.

(** Keys of the [counts] dictionary.  Python compares [True] with [1] and
    [False] with [0] as equal keys; lists and dicts cannot be keys. *)
Inductive hkey : Type :=
| KNone
| KInt (z : Z)
| KStr (s : string).

Global Instance hkey_eq_dec : EqDecision hkey.
Proof. solve_decision. Defined.

Definition hash_key (v : json) : option hkey :=
  match v with
  | JNull => Some KNone
  | JBool b => Some (KInt (if b then 1 else 0)%Z)
  | JInt z => Some (KInt z)
  | JStr s => Some (KStr s)
  | JArr _ | JObj _ => None
  end.

(** [counts[provider] += 1] on a [defaultdict(int)], entries in insertion
    order. *)
Fixpoint counts_incr (k : json) (hk : hkey) (counts : list (json * nat))
    : list (json * nat) :=
  match counts with
  | [] => [(k, 1)]
  | (k', n) :: rest =>
      if decide (hash_key k' = Some hk)
      then (k', n + 1) :: rest
      else (k', n) :: counts_incr k hk rest
  end.

(** [m['provider']] *)
Definition subscript_provider (m : json) : M json :=
  match m with
  | JObj d =>
      match dict_get "provider" d with
      | Some v => ret v
      | None => raise KeyError "'provider'"
      end
  | JArr _ => raise TypeError "list indices must be integers or slices, not str"
  | JStr _ => raise TypeError "string indices must be integers, not 'str'"
  | _ => raise TypeError "object is not subscriptable"
  end.

(** The loop of [get_providers] over the model records. *)
Fixpoint count_providers (models : list json) (counts : list (json * nat))
    : M (list (json * nat)) :=
  match models with
  | [] => ret counts
  | m :: rest =>
      provider <~ subscript_provider m ;;
      match hash_key provider with
      | Some hk => count_providers rest (counts_incr provider hk counts)
      | None => raise TypeError ("unhashable type: '" ++ type_name provider ++ "'")
      end
  end.

Definition get_providers (w : world) (key : option string)
    : M (list (json * nat)) :=
  models <~ get_models w key ;;
  items <~ py_iter models ;;
  count_providers items [].

(** ** Search criteria and the body of the search request *)

Record criteria : Type := Criteria {
  provider : option string;
  min_context : option Z;
  max_context : option Z;
  min_output_tokens : option Z;
  max_output_tokens : option Z;
  tools : option bool;
  multilingual : option bool;
  audio : option bool;
  vision : option bool;
  reasoning : option bool;
  fine_tuning : option bool;
  streaming : option bool
}.

(** A Python value that may be [None], as JSON. *)
Definition or_null {A} (f : A -> json) (o : option A) : json :=
  match o with
  | Some a => f a
  | None => JNull
  end.

Definition search_payload (c : criteria) : dict :=
  [ ("metadata", JObj [("agent_id", JStr "cli"); ("task_id", JStr "search")]);
    ("provider", or_null JStr (provider c));
    ("min_context", or_null JInt (min_context c));
    ("max_context", or_null JInt (max_context c));
    ("min_output_tokens", or_null JInt (min_output_tokens c));
    ("max_output_tokens", or_null JInt (max_output_tokens c));
    ("tools", or_null JBool (tools c));
    ("multilingual", or_null JBool (multilingual c));
    ("audio", or_null JBool (audio c));
    ("vision", or_null JBool (vision c));
    ("reasoning", or_null JBool (reasoning c));
    ("fine_tuning", or_null JBool (fine_tuning c));
    ("realtime_streaming", or_null JBool (streaming c)) ].

(** The [json=] argument of a call: Python's [None] stands for no body. *)
Definition json_arg (data : json) : option json :=
  match data with
  | JNull => None
  | _ => Some data
  end.

Definition search_models (w : world) (key : option string) (c : criteria)
    : M json :=
  call w key POST "/api/agents/search" (json_arg (JObj (search_payload c))).

Definition compare_models (w : world) (key : option string) (data : json)
    : M json :=
  call w key POST "/api/agents/compare" (json_arg data).

Definition calculate_price (w : world) (key : option string) (data : json)
    : M json :=
  call w key POST "/api/agents/calculate" (json_arg data).

(** ** Dynamic operations used by the commands *)

Definition no_attribute {A} (v : json) (attr : string) : M A :=
  raise AttributeError
    ("'" ++ type_name v ++ "' object has no attribute '" ++ attr ++ "'").

(** [model.get(k, default)] *)
Definition get_or (m : json) (k : string) (default : json) : M json :=
  match m with
  | JObj d =>
      match dict_get k d with
      | Some v => ret v
      | None => ret default
      end
  | _ => no_attribute m "get"
  end.

(** [v.lower()] *)
Definition str_lower (v : json) : M string :=
  match v with
  | JStr s => ret (lower s)
  | _ => no_attribute v "lower"
  end.

(** [search in model.get(k, '').lower()] *)
Definition field_contains (search : string) (m : json) (k : string) : M bool :=
  v <~ get_or m k (JStr "") ;;
  s <~ str_lower v ;;
  ret (str_in search s).

(** The condition of the comprehension; [or] stops at the first true test. *)
Definition model_matches (search : string) (m : json) : M bool :=
  a <~ field_contains search m "provider" ;;
  if a then ret true else
  b <~ field_contains search m "model_family" ;;
  if b then ret true else
  field_contains search m "model_name".

Fixpoint filter_models (search : string) (models : list json) : M (list json) :=
  match models with
  | [] => ret []
  | m :: rest =>
      keep <~ model_matches search m ;;
      kept <~ filter_models search rest ;;
      ret (if keep then m :: kept else kept)
  end.

(** One row of the models table. *)
Definition model_row (m : json) : M (list json) :=
  a <~ get_or m "provider" (JStr "N/A") ;;
  b <~ get_or m "model_family" (JStr "N/A") ;;
  c <~ get_or m "model_name" (JStr "N/A") ;;
  ret [a; b; c].

Fixpoint model_rows (models : list json) : M (list (list json)) :=
  match models with
  | [] => ret []
  | m :: rest =>
      row <~ model_row m ;;
      rows <~ model_rows rest ;;
      ret (row :: rows)
  end.

(** [len(v)] *)
Definition py_len (v : json) : M nat :=
  match v with
  | JArr l => ret (length l)
  | JObj d => ret (length d)
  | JStr s => ret (String.length s)
  | _ => raise TypeError ("object of type '" ++ type_name v ++ "' has no len()")
  end.

(** [stats.items()] *)
Definition py_items (v : json) : M dict :=
  match v with
  | JObj d => ret d
  | _ => no_attribute v "items"
  end.

(** [except requests.RequestException as e: raise click.ClickException(...)] *)
Definition on_request_exception {A} (e : exn) : option (M A) :=
  if is_request_exception e
  then Some (raise ClickException ("API request failed: " ++ exn_str e))
  else None.

(** The two [except] clauses of [compare] and [calculate], in source order. *)
Definition on_file_or_request_exception {A} (e : exn) : option (M A) :=
  if is_file_error e
  then Some (raise ClickException ("Error reading input file: " ++ exn_str e))
  else on_request_exception e.

(** ** The commands *)

Definition list_models (w : world) (search : string) : M unit :=
  try_except
    (models <~ get_models w (env_api_key w) ;;
     let search' := if truthy (JStr search) then lower search else search in
     models' <~ (if truthy (JStr search)
                 then items <~ py_iter models ;;
                      kept <~ filter_models search' items ;;
                      ret (JArr kept)
                 else ret models) ;;
     if negb (truthy models') then
       if truthy (JStr search')
       then echo (Echo ("No models found matching search: " ++ search'))
       else echo (Echo "No models available")
     else
       items <~ py_iter models' ;;
       table_data <~ model_rows items ;;
       echo (EchoTable ["Provider"; "Model Family"; "Model Name"] table_data) ;;;
       n <~ py_len models' ;;
       echo (Echo (String "010" "Total models: " ++ str_of_nat n)))
    on_request_exception.

Definition provider_rows (providers : list (json * nat)) : list (list json) :=
  map (fun pc => [fst pc; JInt (Z.of_nat (snd pc))]) providers.

Definition list_providers (w : world) : M unit :=
  try_except
    (providers <~ get_providers w (env_api_key w) ;;
     match providers with
     | [] => echo (Echo "No providers available")
     | _ =>
         echo (EchoTable ["Provider"; "Models"] (provider_rows providers)) ;;;
         echo (Echo (String "010" "Total providers: "
                     ++ str_of_nat (length providers)))
     end)
    on_request_exception.

Definition stats (w : world) : M unit :=
  try_except
    (stats <~ get_stats w (env_api_key w) ;;
     items <~ py_items stats ;;
     echo (EchoTable ["Provider"; "Model Count"]
             (map (fun pc => [JStr (fst pc); snd pc]) items)))
    on_request_exception.

Definition search (w : world) (c : criteria) : M unit :=
  try_except
    (results <~ search_models w (env_api_key w) c ;;
     echo (Echo "Search Results:") ;;;
     echo (EchoJson results 2))
    on_request_exception.

(** [with open(spec) as f: ... f.read()]: the file is opened as text, and
    read in one piece by [json.load]. *)
Definition open_read (w : world) (path : string) : M string :=
  match fs w path with
  | Regular contents => ret contents
  | Undecodable why => raise UnicodeDecodeError why
  | Missing =>
      raise FileNotFoundError
        ("[Errno 2] No such file or directory: '" ++ path ++ "'")
  | Directory =>
      raise IsADirectoryError ("[Errno 21] Is a directory: '" ++ path ++ "'")
  | Unreadable =>
      raise PermissionError ("[Errno 13] Permission denied: '" ++ path ++ "'")
  end.

(** [json.load(f)] *)
Definition json_load (w : world) (path : string) : M json :=
  contents <~ open_read w path ;;
  match json_loads w contents with
  | Parsed v => ret v
  | Malformed why => raise JSONDecodeError why
  end.

Definition compare (w : world) (spec : string) : M unit :=
  try_except
    (data <~ json_load w spec ;;
     results <~ compare_models w (env_api_key w) data ;;
     echo (EchoJson results 2))
    on_file_or_request_exception.

Definition calculate (w : world) (spec : string) : M unit :=
  try_except
    (data <~ json_load w spec ;;
     results <~ calculate_price w (env_api_key w) data ;;
     echo (EchoJson results 2))
    on_file_or_request_exception.

(** ** [random.sample] and the objects it hands out *)

(** [randbelow(m)], drawn as the [i]-th number of the run. *)
Definition randbelow (rand : nat -> nat) (i m : nat) : nat := rand i mod m.

(** The selection loop of [random.sample] over a copy of a small population:
    [for i in range(k): j = randbelow(n - i); result[i] = pool[j];
     pool[j] = pool[n - i - 1]].  The last branch is never taken when
    [i + todo <= n = len(pool)]. *)
Fixpoint sample_loop {A} (rand : nat -> nat) (pool : list A) (n i todo : nat)
    : list A :=
  match todo with
  | 0 => []
  | S todo' =>
      let j := randbelow rand i (n - i) in
      match pool !! j, pool !! (n - i - 1) with
      | Some x, Some y => x :: sample_loop rand (<[j := y]> pool) n (S i) todo'
      | _, _ => []
      end
  end.

(** The population size up to which [random.sample] selects from a pool:
    [setsize = 21; if k > 5: setsize += 4 ** ceil(log(k * 3, 4))]. *)
Definition setsize (k : nat) : nat :=
  21 + (if 5 <? k then 4 ^ ((Nat.log2_up (3 * k) + 1) / 2) else 0).

(** [j = randbelow(n); while j in selected: j = randbelow(n)], from draw [i]
    on: the position drawn and the index of the next draw.  [None] when all
    of [fuel] draws are in [selected]. *)
Fixpoint redraw (rand : nat -> nat) (n : nat) (selected : list nat)
    (i fuel : nat) : option (nat * nat) :=
  match fuel with
  | 0 => None
  | S fuel' =>
      let j := randbelow rand i n in
      if bool_decide (j ∈ selected)
      then redraw rand n selected (S i) fuel'
      else Some (j, S i)
  end.

(** The selection loop of [random.sample] over a large population:
    [for i in range(k): j = randbelow(n); while j in selected: ...;
     selected_add(j); result[i] = population[j]]. *)
Fixpoint select_loop {A} (rand : nat -> nat) (limit : nat)
    (population : list A) (n : nat) (selected : list nat) (i todo : nat)
    : option (list A) :=
  match todo with
  | 0 => Some []
  | S todo' =>
      match redraw rand n selected i limit with
      | None => None
      | Some (j, i') =>
          match population !! j,
                select_loop rand limit population n (j :: selected) i' todo'
          with
          | Some x, Some rest => Some (x :: rest)
          | _, _ => None
          end
      end
  end.

(** The sample that [random.sample(population, k)] returns for [k] not above
    the size of the population: from a pool when the population is small,
    by drawing positions and redrawing the repeated ones when it is large.
    [None] when the redrawing does not end within [limit] draws. *)
Definition random_choice {A} (rand : nat -> nat) (limit : nat)
    (population : list A) (k : nat) : option (list A) :=
  if length population <=? setsize k
  then Some (sample_loop rand population (length population) 0 k)
  else select_loop rand limit population (length population) [] 0 k.

(** A loop that does not end. *)
Definition never_ends {A} : M A := raise Unending "".

(** [random.sample(population, k)] for a list. *)
Definition random_sample {A} (rand : nat -> nat) (limit : nat)
    (population : list A) (k : nat) : M (list A) :=
  if length population <? k
  then raise ValueError "Sample larger than population or is negative"
  else
    match random_choice rand limit population k with
    | Some sample => ret sample
    | None => never_ends
    end.

(** The items of the decoded model list are separate objects; they are
    placed in the object store and known by their index in it. *)
Definition alloc_all (items : list json) : M (list nat) :=
  fun st =>
    (Ok (seq (length (heap st)) (length items)),
     State (base_url st) (out st) (log st) (heap st ++ items)).

(** [obj.update(other)] on the object with identity [r]. *)
Definition obj_update (r : nat) (other : dict) : M unit :=
  fun st =>
    match heap st !! r with
    | Some (JObj d) =>
        (Ok tt, State (base_url st) (out st) (log st)
                  (<[r := JObj (dict_update d other)]> (heap st)))
    | Some v => no_attribute v "update" st
    | None => no_attribute JNull "update" st
    end.

(** The current value of each object, as [json.dumps] reads it. *)
Definition deref_all (refs : list nat) : M (list json) :=
  fun st => (Ok (omap (fun r => heap st !! r) refs), st).

(** The population handed to [random.sample]: a list, or the characters of a
    string; anything else is not a sequence. *)
Definition as_sequence (v : json) : M (list json) :=
  match v with
  | JArr _ | JStr _ => py_iter v
  | _ =>
      raise TypeError
        "Population must be a sequence.  For dicts or sets, use sorted(d)."
  end.

Inductive spec_kind : Type := ForCompare | ForCalculate.

Definition sample_spec (w : world) (command : spec_kind) : M unit :=
  models <~ get_models w (env_api_key w) ;;
  items <~ as_sequence models ;;
  refs <~ alloc_all items ;;
  twomodels <~ random_sample (rand w) (patience w) refs 2 ;;
  match command with
  | ForCompare =>
      objs <~ deref_all twomodels ;;
      echo (EchoJson
              (JObj [ ("models", JArr objs);
                      ("input_tokens", JInt 1000);
                      ("output_tokens", JInt 500);
                      ("metadata",
                       JObj [ ("agent_id", JStr "cli-sample");
                              ("task_id", JStr "comparison-test");
                              ("message_id", JStr "msg123");
                              ("thread_id", JStr "thread456") ]) ])
              4)
  | ForCalculate =>
      match twomodels with
      | first :: second :: _ =>
          obj_update first
            [("input_tokens", JInt 1000); ("output_tokens", JInt 500)] ;;;
          obj_update second
            [("input_tokens", JInt 2000); ("output_tokens", JInt 1000)] ;;;
          objs <~ deref_all twomodels ;;
          echo (EchoJson
                  (JObj [ ("calculations", JArr objs);
                          ("metadata",
                           JObj [ ("agent_id", JStr "cli-sample");
                                  ("task_id", JStr "calculation-test");
                                  ("message_id", JStr "msg789");
                                  ("thread_id", JStr "thread012") ]) ])
                  4)
      | _ => raise IndexError "list index out of range"
      end
  end.

(** ** The command group and the process *)

Inductive command : Type :=
| ListModels (search : string)
| ListProviders
| Stats
| Search (c : criteria)
| Compare (spec : string)
| Calculate (spec : string)
| SampleSpec (kind : spec_kind).

Record invocation : Type := Invocation {
  server : option string;         (* --server *)
  subcommand : command
}.

(** The body of the group function [cli], run before any subcommand. *)
Definition cli (w : world) (server : option string) : M unit :=
  if negb (truthy (or_null JStr (env_api_key w)))
  then raise ClickException "COMPARER_API_KEY environment variable not set"
  else
    if truthy (or_null JStr server)
    then set_base_url (default "" server)
    else ret tt.

(** [click.Path(exists=True)], checked when the subcommand's arguments are
    parsed, after the group function has run: the path must exist and be
    readable; a directory will do. *)
Definition path_exists (w : world) (path : string) : M unit :=
  match fs w path with
  | Missing =>
      raise BadParameter
        ("Invalid value for 'SPEC': Path '" ++ path ++ "' does not exist.")
  | Unreadable =>
      raise BadParameter
        ("Invalid value for 'SPEC': Path '" ++ path ++ "' is not readable.")
  | _ => ret tt
  end.

Definition invoke (w : world) (c : command) : M unit :=
  match c with
  | ListModels s => list_models w s
  | ListProviders => list_providers w
  | Stats => stats w
  | Search c => search w c
  | Compare spec => path_exists w spec ;;; compare w spec
  | Calculate spec => path_exists w spec ;;; calculate w spec
  | SampleSpec kind => sample_spec w kind
  end.

(** How the process ends: normally, with click's one-line [Error: ...]
    message, with click's usage error, or with an exception nobody caught
    (the interpreter prints its traceback).  A run may also not end. *)
Inductive ending : Type :=
| Finished
| ErrorMessage (msg : string)
| UsageError (msg : string)
| Uncaught (e : exn)
| NeverEnds.

Definition ending_of (r : result unit) : ending :=
  match r with
  | Ok _ => Finished
  | Raise e =>
      match exn_cls e with
      | ClickException => ErrorMessage (exn_str e)
      | BadParameter => UsageError (exn_str e)
      | Unending => NeverEnds
      | _ => Uncaught e
      end
  end.

(** The exit status of a run that ends.  A run that does not end has none;
    it is counted with the runs that did not finish. *)
Definition exit_status (e : ending) : nat :=
  match e with
  | Finished => 0
  | ErrorMessage _ => 1
  | UsageError _ => 2
  | Uncaught _ => 1
  | NeverEnds => 1
  end.

Record outcome : Type := Outcome {
  ended : ending;
  printed : list out_item;
  sent : list request
}.

(** One run of the program. *)
Definition main (w : world) (inv : invocation) : outcome :=
  let '(r, st) := (cli w (server inv) ;;; invoke w (subcommand inv)) initial_state in
  Outcome (ending_of r) (out st) (log st).

(** * Vocabulary of the properties *)

(** ** Text *)

(** Two characters that are equal up to letter case. *)
Definition ci_char (a b : ascii) : Prop :=
  a = b \/
  (is_upper a = true /\ b = lower_char a) \/
  (is_upper b = true /\ a = lower_char b).

(** Two strings of the same length, equal up to letter case. *)
Inductive ci_equal : string -> string -> Prop :=
| ci_equal_nil : ci_equal EmptyString EmptyString
| ci_equal_cons a b s t :
    ci_char a b -> ci_equal s t -> ci_equal (String a s) (String b t).

(** [p] occurs in [s] when letter case is ignored. *)
Definition ci_substring (p s : string) : Prop :=
  exists pre mid post : string, s = (pre ++ mid ++ post)%string /\ ci_equal p mid.

(** ** The transport client *)

(** The state after one more call of the session. *)
Definition after_request (st : state) (req : request) : state :=
  State (base_url st) (out st) (log st ++ [req]) (heap st).

(** The state after more items have been printed. *)
Definition after_output (st : state) (items : list out_item) : state :=
  State (base_url st) (out st ++ items) (log st) (heap st).

(** ** Model records *)

(** The three text fields shown by [list-models]. *)
Definition name_fields : list string :=
  ["provider"; "model_family"; "model_name"].

(** The value a record holds under a key, if the record is an object that
    has the key. *)
Definition field (m : json) (k : string) : option json :=
  match m with
  | JObj d => dict_get k d
  | _ => None
  end.

Definition is_object (m : json) : Prop := exists d, m = JObj d.

(** A model record: an object whose name fields, where present, are text.
    Any of them may be missing. *)
Definition model_record (m : json) : Prop :=
  is_object m /\
  forall k v, In k name_fields -> field m k = Some v -> exists s, v = JStr s.

(** The text of a field, with a stand-in when the field is missing. *)
Definition field_text (missing : string) (m : json) (k : string) : string :=
  match field m k with
  | Some (JStr s) => s
  | _ => missing
  end.

(** Filter of [list-models], said with missing fields read as empty text. *)
Definition matches_search (search : string) (m : json) : bool :=
  existsb (fun k => str_in (lower search) (lower (field_text "" m k))) name_fields.

(** Table row of [list-models], said with missing fields read as N/A. *)
Definition table_row (m : json) : list json :=
  map (fun k => JStr (field_text "N/A" m k)) name_fields.

(** The records that [list-models --search S] shows. *)
Definition shown (search : string) (models : list json) : list json :=
  if String.eqb search "" then models
  else List.filter (matches_search search) models.

(** What [list-models] prints for the records it shows. *)
Definition models_output (search : string) (records : list json)
    : list out_item :=
  match records with
  | [] =>
      if String.eqb search ""
      then [Echo "No models available"]
      else [Echo ("No models found matching search: " ++ lower search)]
  | _ =>
      [EchoTable ["Provider"; "Model Family"; "Model Name"]
         (map table_row records);
       Echo (String "010" "Total models: " ++ str_of_nat (length records))]
  end.

(** ** A small world for examples *)

Definition demo_models : list json :=
  [ JObj [ ("provider", JStr "OpenAI"); ("model_family", JStr "o-series");
           ("model_name", JStr "GPT-4"); ("tools", JBool true) ];
    JObj [ ("provider", JStr "Anthropic"); ("model_family", JStr "claude");
           ("model_name", JStr "Claude 3"); ("tools", JBool true) ];
    JObj [ ("provider", JStr "OpenAI"); ("context", JInt 8192) ] ].

(** A decoder that knows three documents. *)
Definition demo_loads (s : string) : parse_result :=
  if String.eqb s "<the model list>" then Parsed (JArr demo_models)
  else if String.eqb s "{}" then Parsed (JObj [])
  else if String.eqb s "null" then Parsed JNull
  else Malformed "Expecting value: line 1 column 1 (char 0)".

Definition demo_fs (path : string) : file_state :=
  if String.eqb path "broken.json" then Regular "{ not json"
  else if String.eqb path "empty.json" then Regular "{}"
  else if String.eqb path "null.json" then Regular "null"
  else if String.eqb path "latin1.json"
  then Undecodable "'utf-8' codec can't decode byte 0xff in position 0: invalid start byte"
  else Missing.

Definition demo_world : world :=
  World (Some "secret")
        (fun req => Reply (Response 200 "OK" (req_url req) "<the model list>"))
        demo_fs demo_loads (fun i => 3 * i + 1) 64.

(** The same world with the network down. *)
Definition offline_world : world :=
  World (Some "secret")
        (fun _ => TransportFailure "Connection refused")
        demo_fs demo_loads (fun i => 3 * i + 1) 64.

(** ** list-models *)

(** Some name field of the record is present, is text, and contains the
    search string up to letter case. *)
Definition matches_ci (search : string) (m : json) : Prop :=
  exists k s, In k name_fields /\ field m k = Some (JStr s) /\
              ci_substring search s.

(** ** search *)

(** The twelve search criteria. *)
Inductive criteria_field : Type :=
| FProvider | FMinContext | FMaxContext | FMinOutputTokens | FMaxOutputTokens
| FTools | FMultilingual | FAudio | FVision | FReasoning | FFineTuning
| FStreaming.

Definition all_fields : list criteria_field :=
  [ FProvider; FMinContext; FMaxContext; FMinOutputTokens; FMaxOutputTokens;
    FTools; FMultilingual; FAudio; FVision; FReasoning; FFineTuning;
    FStreaming ].

(** The key under which a criterion travels in the request body. *)
Definition field_key (f : criteria_field) : string :=
  match f with
  | FProvider => "provider"
  | FMinContext => "min_context"
  | FMaxContext => "max_context"
  | FMinOutputTokens => "min_output_tokens"
  | FMaxOutputTokens => "max_output_tokens"
  | FTools => "tools"
  | FMultilingual => "multilingual"
  | FAudio => "audio"
  | FVision => "vision"
  | FReasoning => "reasoning"
  | FFineTuning => "fine_tuning"
  | FStreaming => "realtime_streaming"
  end.

(** The value given for a criterion on the command line, [None] when its
    flag was not given. *)
Definition field_value (c : criteria) (f : criteria_field) : option json :=
  match f with
  | FProvider => JStr <$> provider c
  | FMinContext => JInt <$> min_context c
  | FMaxContext => JInt <$> max_context c
  | FMinOutputTokens => JInt <$> min_output_tokens c
  | FMaxOutputTokens => JInt <$> max_output_tokens c
  | FTools => JBool <$> tools c
  | FMultilingual => JBool <$> multilingual c
  | FAudio => JBool <$> audio c
  | FVision => JBool <$> vision c
  | FReasoning => JBool <$> reasoning c
  | FFineTuning => JBool <$> fine_tuning c
  | FStreaming => JBool <$> streaming c
  end.

(** [search] with no flag at all. *)
Definition no_flags : criteria :=
  Criteria None None None None None None None None None None None None.

Definition search_envelope : json :=
  JObj [("agent_id", JStr "cli"); ("task_id", JStr "search")].

(** The reading of the specification under which unset criteria are left out
    of the request body. *)
Definition omits_unset_fields (c : criteria) (body : dict) : Prop :=
  forall f, field_value c f = None -> dict_get (field_key f) body = None.

Definition search_request (w : world) (c : criteria) (st : state) : request :=
  Request POST (base_url st ++ "/api/agents/search") (env_api_key w)
          (Some (JObj (search_payload c))).

(** ** The credential *)

(** The credential is configured: the variable is set and not empty. *)
Definition key_configured (w : world) : Prop :=
  exists k, env_api_key w = Some k /\ k <> "".

(** A world without the credential. *)
Definition unconfigured_world : world :=
  World None (fun req => Reply (Response 200 "OK" (req_url req) "<the model list>"))
        demo_fs demo_loads (fun i => i) 64.

(** The state in which the subcommand starts. *)
Definition started (srv : option string) : state :=
  if truthy (or_null JStr srv)
  then State (default "" srv) [] [] []
  else initial_state.

(** ** Transport failures *)

(** The service cannot be reached: every call of the session raises, with
    [cause]. *)
Definition unreachable (w : world) (cause : string) : Prop :=
  forall req, http w req = TransportFailure cause.

(** The commands whose body sits in a [try] with an
    [except requests.RequestException] clause, given a spec file that loads. *)
Inductive guarded (w : world) : command -> Prop :=
| guarded_list_models s : guarded w (ListModels s)
| guarded_list_providers : guarded w ListProviders
| guarded_stats : guarded w Stats
| guarded_search c : guarded w (Search c)
| guarded_compare spec contents v :
    fs w spec = Regular contents -> json_loads w contents = Parsed v ->
    guarded w (Compare spec)
| guarded_calculate spec contents v :
    fs w spec = Regular contents -> json_loads w contents = Parsed v ->
    guarded w (Calculate spec).

(** ** Providers *)

(** The provider of a record, when the record is an object that names its
    provider as text. *)
Definition provider_text (m : json) : option string :=
  match field m "provider" with
  | Some (JStr p) => Some p
  | _ => None
  end.

Definition has_text_provider (m : json) : Prop := is_Some (provider_text m).

Definition providers_of (models : list json) : list string :=
  omap provider_text models.

(** The records of provider [p]. *)
Definition models_of (p : string) (models : list json) : list json :=
  List.filter (fun m => bool_decide (provider_text m = Some p)) models.

(** The set of distinct provider values of a model list. *)
Definition distinct_providers (models : list json) : gset string :=
  list_to_set (providers_of models).

(** The counting loop on text keys alone. *)
Fixpoint tally_incr (p : string) (cs : list (string * nat))
    : list (string * nat) :=
  match cs with
  | [] => [(p, 1)]
  | (q, n) :: rest =>
      if decide (q = p) then (q, n + 1) :: rest else (q, n) :: tally_incr p rest
  end.

Definition tally (ps : list string) (cs : list (string * nat))
    : list (string * nat) :=
  fold_left (fun acc p => tally_incr p acc) ps cs.

Definition as_counts (cs : list (string * nat)) : list (json * nat) :=
  map (fun pn => (JStr (fst pn), snd pn)) cs.

Fixpoint tally_get (p : string) (cs : list (string * nat)) : nat :=
  match cs with
  | [] => 0
  | (q, n) :: rest => if decide (q = p) then n else tally_get p rest
  end.

(** ** sample-spec *)

(** The token counts that [sample-spec calculate] writes into a record. *)
Definition with_tokens (input output : Z) (d : dict) : dict :=
  dict_update d [("input_tokens", JInt input); ("output_tokens", JInt output)].

Definition calculation_metadata : json :=
  JObj [ ("agent_id", JStr "cli-sample");
         ("task_id", JStr "calculation-test");
         ("message_id", JStr "msg789");
         ("thread_id", JStr "thread012") ].

(** The positions that two draws [j0 < n] and [j1 < n - 1] select from a
    population of [n]: the second draw is read in the pool whose slot [j0]
    has been refilled with the last element. *)
Definition picks (n j0 j1 : nat) : nat * nat :=
  (j0, if decide (j1 = j0) then n - 1 else j1).

(** ** Runs as a whole *)

(** The endpoint a command talks to. *)
Definition endpoint (c : command) : http_method * string :=
  match c with
  | ListModels _ | ListProviders | SampleSpec _ => (GET, "/api/models/list")
  | Stats => (GET, "/api/models/stats")
  | Search _ => (POST, "/api/agents/search")
  | Compare _ => (POST, "/api/agents/compare")
  | Calculate _ => (POST, "/api/agents/calculate")
  end.

(** The base URL in force: the value of [--server] when given and not empty,
    the built-in one otherwise. *)
Definition base_of (srv : option string) : string :=
  match srv with
  | Some s => if String.eqb s "" then "https://agentcomparer.com" else s
  | None => "https://agentcomparer.com"
  end.

(** [req] is a request of command [c] under base URL [base]: right method,
    right address, and the credential in its header. *)
Definition request_of (w : world) (c : command) (base : string)
    (req : request) : Prop :=
  req_method req = fst (endpoint c) /\
  req_url req = (base ++ snd (endpoint c))%string /\
  req_api_key req = env_api_key w.

(** A computation that leaves the state as it is. *)
Definition inert {A} (m : M A) : Prop :=
  forall st, snd (m st) = st.

(** A computation that makes no call of the session and leaves the base URL
    alone. *)
Definition offline {A} (m : M A) : Prop :=
  forall st, log (snd (m st)) = log st /\ base_url (snd (m st)) = base_url st.

(** A computation that makes at most one call of the session, and then one that
    satisfies [P] for the base URL in force. *)
Definition at_most_one {A} (P : string -> request -> Prop) (m : M A) : Prop :=
  forall st,
    base_url (snd (m st)) = base_url st /\
    (log (snd (m st)) = log st \/
     exists req, P (base_url st) req /\ log (snd (m st)) = log st ++ [req]).

(** A computation that prints nothing. *)
Definition silent {A} (m : M A) : Prop :=
  forall st, out (snd (m st)) = out st.

(** A computation that never raises. *)
Definition unfailing {A} (m : M A) : Prop :=
  forall st, exists a, fst (m st) = Ok a.

(** A computation that has printed nothing when it raises. *)
Definition all_or_nothing {A} (m : M A) : Prop :=
  forall st e, fst (m st) = Raise e -> out (snd (m st)) = out st.

(** Every call of the session returns a response with a success status and a
    body that decodes to [v]. *)
Definition answers (w : world) (v : json) : Prop :=
  forall req, exists r,
    http w req = Reply r /\
    ~ (400 <= status_code r < 600) /\
    json_loads w (text r) = Parsed v.

(** Every call of the session returns the error response [r]. *)
Definition rejects (w : world) (r : response) : Prop :=
  (forall req, http w req = Reply r) /\ 400 <= status_code r < 600.

(** Names in the order in which they first occur. *)
Fixpoint first_seen (ps : list string) : list string :=
  match ps with
  | [] => []
  | p :: rest => p :: List.filter (fun q => negb (String.eqb q p)) (first_seen rest)
  end.

(** A world whose service answers 404 to everything. *)
Definition not_found : response :=
  Response 404 "Not Found" "https://agentcomparer.com/api/models/stats" "<html>".

Definition rejecting_world : world :=
  World (Some "secret") (fun _ => Reply not_found)
        demo_fs demo_loads (fun i => 3 * i + 1) 64.

(** A world whose service knows a single model. *)
Definition lonely_world : world :=
  World (Some "secret") (fun req => Reply (Response 200 "OK" (req_url req) "<one model>"))
        demo_fs
        (fun s => if String.eqb s "<one model>"
                  then Parsed (JArr [JObj [("provider", JStr "OpenAI")]])
                  else demo_loads s)
        (fun i => i) 64.

(** A world whose model list has a record without provider, and whose stats
    endpoint answers with the same list. *)
Definition ragged_models : list json :=
  [ JObj [("provider", JStr "OpenAI"); ("model_name", JStr "GPT-4")];
    JObj [("model_name", JStr "mystery")] ].

Definition ragged_world : world :=
  World (Some "secret") (fun req => Reply (Response 200 "OK" (req_url req) "<ragged>"))
        (fun path => if String.eqb path "specs" then Directory else demo_fs path)
        (fun s => if String.eqb s "<ragged>" then Parsed (JArr ragged_models)
                  else demo_loads s)
        (fun i => i) 64.

(** A world whose service answers every call with one object. *)
Definition stats_body : dict :=
  [("OpenAI", JInt 12); ("Anthropic", JInt 7)].

Definition stats_world : world :=
  World (Some "secret") (fun req => Reply (Response 200 "OK" (req_url req) "<stats>"))
        demo_fs
        (fun s => if String.eqb s "<stats>" then Parsed (JObj stats_body)
                  else demo_loads s)
        (fun i => i) 64.

Definition comparison_metadata : json :=
  JObj [ ("agent_id", JStr "cli-sample");
         ("task_id", JStr "comparison-test");
         ("message_id", JStr "msg123");
         ("thread_id", JStr "thread456") ].

(** The request a command makes under base URL [base], given the body it
    posts. *)
Definition request_to (w : world) (c : command) (base : string)
    (body : option json) : request :=
  Request (fst (endpoint c)) (base ++ snd (endpoint c)) (env_api_key w) body.

(** Every call of the session returns a response with a success status and a
    body that is not JSON. *)
Definition garbles (w : world) (why : string) : Prop :=
  forall req, exists r,
    http w req = Reply r /\
    ~ (400 <= status_code r < 600) /\
    json_loads w (text r) = Malformed why.

(** A world whose service answers with a web page. *)
Definition garbling_world : world :=
  World (Some "secret") (fun req => Reply (Response 200 "OK" (req_url req) "<html>"))
        demo_fs demo_loads (fun i => i) 64.

(** The selection of two out of [n] ends: always when [n] is small; when
    [n] is large, as soon as some draw within the limit differs from the
    first one. *)
Definition selection_ends (rand : nat -> nat) (limit n : nat) : Prop :=
  n <= setsize 2 \/
  (0 < limit /\
   exists i, 1 <= i <= limit /\ randbelow rand i n <> randbelow rand 0 n).

(** A world with twenty-two models and a generator that draws 3, 3, 7. *)
Definition crowded_models : list json :=
  map (fun i => JObj [("id", JInt (Z.of_nat i))]) (seq 0 22).

Definition crowded_world : world :=
  World (Some "secret")
        (fun req => Reply (Response 200 "OK" (req_url req) "<crowd>"))
        demo_fs
        (fun s => if String.eqb s "<crowd>" then Parsed (JArr crowded_models)
                  else demo_loads s)
        (fun i => nth i [3; 3; 7] 0) 64.










(** * Properties *)

(** ** Text *)

Lemma lower_char_idem c : lower_char (lower_char c) = lower_char c.
Proof. destruct c as [[] [] [] [] [] [] [] []]; reflexivity. Qed.

Lemma lower_char_upper_inj a b :
  is_upper a = true -> is_upper b = true ->
  lower_char a = lower_char b -> a = b.
Proof.
  unfold lower_char. intros Ha Hb. rewrite Ha, Hb. intros E.
  unfold is_upper in Ha, Hb.
  apply andb_true_iff in Ha as [_ Ha], Hb as [_ Hb].
  apply Nat.leb_le in Ha, Hb.
  apply (f_equal nat_of_ascii) in E.
  rewrite !nat_ascii_embedding in E by lia.
  rewrite <- (ascii_nat_embedding a), <- (ascii_nat_embedding b).
  f_equal. lia.
Qed.

Lemma lower_char_eq_iff a b : lower_char a = lower_char b <-> ci_char a b.
Proof.
  split.
  - intros E. destruct (is_upper a) eqn:Ha, (is_upper b) eqn:Hb.
    + left. by apply lower_char_upper_inj.
    + right; left. split; [done|].
      rewrite E. unfold lower_char. by rewrite Hb.
    + right; right. split; [done|].
      rewrite <- E. unfold lower_char. by rewrite Ha.
    + left. unfold lower_char in E. by rewrite Ha, Hb in E.
  - intros [-> | [[_ ->] | [_ ->]]]; by rewrite ?lower_char_idem.
Qed.

Lemma lower_eq_iff s t : lower s = lower t <-> ci_equal s t.
Proof.
  split.
  - revert t. induction s as [|a s IH]; intros [|b t] E; simpl in E; try done.
    + constructor.
    + injection E as Ec Es. constructor; [by apply lower_char_eq_iff | auto].
  - induction 1 as [|a b s t Hc _ IH]; simpl; [done|].
    apply lower_char_eq_iff in Hc. by rewrite Hc, IH.
Qed.


Lemma lower_empty_iff s : lower s = EmptyString <-> s = EmptyString.
Proof. by destruct s. Qed.





Lemma str_in_empty_r p : p <> EmptyString -> str_in p EmptyString = false.
Proof. by destruct p. Qed.

(** ** The transport client *)

Local Arguments Nat.leb : simpl never.
Local Arguments Nat.ltb : simpl never.
Local Arguments String.append : simpl never.

Ltac run_monad :=
  unfold bind, ret, raise, get_base_url, echo, set_base_url; simpl.

Lemma bind_ok {A B} (m : M A) (k : A -> M B) st a st' :
  m st = (Ok a, st') -> bind m k st = k a st'.
Proof. intros H. unfold bind. by rewrite H. Qed.

Lemma bind_raise {A B} (m : M A) (k : A -> M B) st e st' :
  m st = (Raise e, st') -> bind m k st = (Raise e, st').
Proof. intros H. unfold bind. by rewrite H. Qed.

Lemma try_except_ok {A} (body : M A) handler st a st' :
  body st = (Ok a, st') -> try_except body handler st = (Ok a, st').
Proof. intros H. unfold try_except. by rewrite H. Qed.

Lemma try_except_raise {A} (body : M A) handler st e st' :
  body st = (Raise e, st') ->
  try_except body handler st
  = match handler e with Some h => h st' | None => (Raise e, st') end.
Proof. intros H. unfold try_except. by rewrite H. Qed.

Lemma echo_run item st : echo item st = (Ok tt, after_output st [item]).
Proof. done. Qed.

Lemma after_output_app st a b :
  after_output (after_output st a) b = after_output st (a ++ b).
Proof. unfold after_output. simpl. by rewrite app_assoc. Qed.

(** Printing a table and then its count line. *)
Lemma echo_table_count headers rows label n st :
  (echo (EchoTable headers rows) ;;;
   k <~ ret n ;;
   echo (Echo (label ++ str_of_nat k))) st
  = (Ok tt, after_output st
              [EchoTable headers rows; Echo (label ++ str_of_nat n)]).
Proof.
  erewrite bind_ok by apply echo_run.
  erewrite bind_ok by reflexivity.
  by rewrite echo_run, after_output_app.
Qed.

(** Whatever the outcome, a client call makes exactly one call of the
    session and touches nothing else. *)
Lemma call_state w key meth path payload st :
  snd (call w key meth path payload st)
  = after_request st (Request meth (base_url st ++ path) key payload).
Proof.
  unfold call, session_send, raise_for_status, response_json. run_monad.
  destruct (http w _) as [cause | r]; simpl; [done|].
  destruct (_ && _); simpl; [done|].
  by destruct (json_loads w _).
Qed.

(** What a client call raises is a [requests.RequestException]. *)
Lemma call_raises w key meth path payload st e :
  fst (call w key meth path payload st) = Raise e ->
  is_request_exception e = true.
Proof.
  unfold call, session_send, raise_for_status, response_json. run_monad.
  destruct (http w _) as [cause | r]; simpl; [by intros [= <-]|].
  destruct (_ && _); simpl; [by intros [= <-]|].
  destruct (json_loads w _); simpl; [done | by intros [= <-]].
Qed.

(** A request that gets no response makes the call raise. *)
Lemma call_transport_failure w key meth path payload st cause :
  http w (Request meth (base_url st ++ path) key payload) = TransportFailure cause ->
  fst (call w key meth path payload st) = Raise (Exn RequestError cause).
Proof.
  intros H. unfold call, session_send. run_monad. by rewrite H.
Qed.

(** A 4xx or 5xx response makes the call raise. *)
Lemma call_error_status w key meth path payload st r :
  http w (Request meth (base_url st ++ path) key payload) = Reply r ->
  400 <= status_code r < 600 ->
  fst (call w key meth path payload st) = Raise (Exn HTTPError (http_error_msg r)).
Proof.
  intros H [Hlo Hhi]. unfold call, session_send, raise_for_status. run_monad.
  rewrite H. simpl.
  apply Nat.leb_le in Hlo. apply Nat.ltb_lt in Hhi. by rewrite Hlo, Hhi.
Qed.

Lemma call_success w key meth path payload st r v :
  http w (Request meth (base_url st ++ path) key payload) = Reply r ->
  ~ (400 <= status_code r < 600) ->
  json_loads w (text r) = Parsed v ->
  call w key meth path payload st
  = (Ok v, after_request st (Request meth (base_url st ++ path) key payload)).
Proof.
  intros H Hs Hv. unfold call, session_send, raise_for_status, response_json.
  run_monad. rewrite H. simpl.
  destruct (_ && _) eqn:E; simpl.
  - apply andb_true_iff in E as [Hlo Hhi].
    apply Nat.leb_le in Hlo. apply Nat.ltb_lt in Hhi. lia.
  - by rewrite Hv.
Qed.

(** When [get_models] returns, the state is the one after its request. *)
Lemma get_models_state w key st r st1 :
  get_models w key st = (r, st1) ->
  st1 = after_request st (Request GET (base_url st ++ "/api/models/list") key None).
Proof.
  intros H. unfold get_models in H.
  rewrite <- call_state with (w := w). by rewrite H.
Qed.

(** ** Model records *)

Lemma get_or_record m k dflt st :
  model_record m -> In k name_fields ->
  get_or m k (JStr dflt) st = (Ok (JStr (field_text dflt m k)), st).
Proof.
  intros [[d ->] Htext] Hk. unfold get_or, field_text. simpl.
  destruct (dict_get k d) as [v|] eqn:E; [|done].
  destruct (Htext k v Hk) as [s ->]; done.
Qed.

Lemma field_contains_record search m k st :
  model_record m -> In k name_fields ->
  field_contains search m k st
  = (Ok (str_in search (lower (field_text "" m k))), st).
Proof.
  intros Hm Hk. unfold field_contains, bind.
  by rewrite get_or_record.
Qed.

Lemma model_matches_record search m st :
  model_record m ->
  model_matches (lower search) m st = (Ok (matches_search search m), st).
Proof.
  intros Hm. unfold model_matches, matches_search, bind. simpl.
  rewrite !field_contains_record by (simpl; auto).
  destruct (str_in _ (lower (field_text "" m "provider"))); [done|].
  rewrite !field_contains_record by (simpl; auto).
  destruct (str_in _ (lower (field_text "" m "model_family"))); [done|].
  rewrite !field_contains_record by (simpl; auto).
  by rewrite orb_false_r.
Qed.

Lemma filter_models_records search models st :
  Forall model_record models ->
  filter_models (lower search) models st
  = (Ok (List.filter (matches_search search) models), st).
Proof.
  induction 1 as [|m models Hm _ IH]; [done|].
  simpl. unfold bind at 1. rewrite model_matches_record by done.
  unfold bind at 1. rewrite IH. unfold ret.
  by destruct (matches_search search m).
Qed.

Lemma model_rows_records models st :
  Forall model_record models ->
  model_rows models st = (Ok (map table_row models), st).
Proof.
  induction 1 as [|m models Hm _ IH]; [done|].
  simpl. unfold bind at 1, model_row, bind.
  rewrite !get_or_record by (simpl; auto). unfold ret. by rewrite IH.
Qed.

Lemma Forall_filter_records f models :
  Forall model_record models -> Forall model_record (List.filter f models).
Proof.
  rewrite !Forall_forall. intros H m Hm.
  apply H. apply list_elem_of_In. apply list_elem_of_In in Hm.
  by apply filter_In in Hm as [? _].
Qed.

(** The run of [list-models] on a list of model records. *)
Lemma list_models_run w st st1 models search :
  get_models w (env_api_key w) st = (Ok (JArr models), st1) ->
  Forall model_record models ->
  list_models w search st
  = (Ok tt, after_output st1 (models_output search (shown search models))).
Proof.
  intros Hget Hrec. unfold list_models. apply try_except_ok.
  erewrite bind_ok by exact Hget.
  unfold shown, models_output. simpl truthy.
  destruct (String.eqb_spec search "") as [-> | Hne]; simpl negb; cbv iota.
  - erewrite bind_ok by reflexivity.
    destruct models as [|m models]; [done|].
    change (negb (truthy (JArr (m :: models)))) with false. cbv iota.
    erewrite bind_ok by reflexivity.
    erewrite bind_ok by (by apply model_rows_records).
    apply echo_table_count.
  - erewrite bind_ok; cycle 1.
    { erewrite bind_ok by reflexivity.
      erewrite bind_ok by (by apply filter_models_records).
      reflexivity. }
    pose proof (Forall_filter_records (matches_search search) _ Hrec) as Hk.
    destruct (List.filter _ models) as [|m kept] eqn:Ek.
    + change (negb (truthy (JArr []))) with true. cbv iota. simpl truthy.
      destruct (String.eqb_spec (lower search) "") as [E | _]; [|done].
      destruct Hne. by apply lower_empty_iff.
    + change (negb (truthy (JArr (m :: kept)))) with false. cbv iota.
      erewrite bind_ok by reflexivity.
      erewrite bind_ok by (by apply model_rows_records).
      apply echo_table_count.
Qed.

(** ** A small world for examples *)

Lemma demo_models_records : Forall model_record demo_models.
Proof.
  repeat constructor; try (eexists; reflexivity);
    intros k v [<- | [<- | [<- | []]]]; simpl; intros [= <-]; eauto.
Qed.

Lemma demo_get_models :
  get_models demo_world (env_api_key demo_world) initial_state
  = (Ok (JArr demo_models),
     after_request initial_state
       (Request GET "https://agentcomparer.com/api/models/list"
                (Some "secret") None)).
Proof. reflexivity. Qed.

(** ** list-models *)

Lemma matches_search_iff search m :
  search <> "" -> model_record m ->
  matches_search search m = true <->
  exists k s, In k name_fields /\ field m k = Some (JStr s) /\
              str_in (lower search) (lower s) = true.
Proof.
  intros Hne [_ Htext]. unfold matches_search. rewrite existsb_exists. split.
  - intros (k & Hk & Hin). unfold field_text in Hin.
    destruct (field m k) as [v|] eqn:E.
    + destruct (Htext k v Hk E) as [s ->]. eauto.
    + rewrite str_in_empty_r in Hin; [done|].
      intros H. apply Hne. by apply lower_empty_iff.
  - intros (k & s & Hk & E & Hin). exists k. split; [done|].
      unfold field_text. by rewrite E.
Qed.







(** The example of the specification: one of three models is named GPT-4. *)
Example list_models_gpt :
  main demo_world (Invocation None (ListModels "gpt"))
  = Outcome Finished
      [ EchoTable ["Provider"; "Model Family"; "Model Name"]
          [[JStr "OpenAI"; JStr "o-series"; JStr "GPT-4"]];
        Echo (String "010" "Total models: 1") ]
      [ Request GET "https://agentcomparer.com/api/models/list"
                (Some "secret") None ].
Proof. reflexivity. Qed.

(** C10: records may lack any of the three name fields.  [list-models] then
    still returns normally; its filter reads a missing field as the empty
    string, so that a non-empty search string is found in a record only
    through a field the record has; and its table shows N/A for a missing
    field and the stored text for a present one. *)
Theorem list_models_missing_fields w st st1 models search :
  get_models w (env_api_key w) st = (Ok (JArr models), st1) ->
  Forall model_record models ->
  list_models w search st
  = (Ok tt, after_output st1 (models_output search (shown search models))) /\
  (forall m k, field m k = None ->
     field_text "" m k = "" /\ field_text "N/A" m k = "N/A") /\
  (forall m, In m models -> search <> "" ->
     matches_search search m = true <->
     exists k s, In k name_fields /\ field m k = Some (JStr s) /\
                 str_in (lower search) (lower s) = true) /\
  (forall m, In m models ->
     table_row m = map (fun k => default (JStr "N/A") (field m k)) name_fields).
Proof.
  intros Hget Hrec. split; [by apply list_models_run|].
  split; [|split].
  - intros m k E. unfold field_text. by rewrite E.
  - intros m Hm Hne. apply matches_search_iff; [done|].
    rewrite Forall_forall in Hrec. apply Hrec. by apply list_elem_of_In.
  - intros m Hm.
    assert (model_record m) as [_ Htext].
    { rewrite Forall_forall in Hrec. apply Hrec. by apply list_elem_of_In. }
    unfold table_row. apply map_ext_in. intros k Hk. unfold field_text.
    destruct (field m k) as [v|] eqn:E; [|done].
    by destruct (Htext k v Hk E) as [s ->].
Qed.

Lemma list_models_missing_fields_witness :
  list_models demo_world "" initial_state
  = (Ok tt,
     after_output
       (after_request initial_state
          (Request GET "https://agentcomparer.com/api/models/list"
                   (Some "secret") None))
       (models_output "" (shown "" demo_models))) /\
  (forall m k, field m k = None ->
     field_text "" m k = "" /\ field_text "N/A" m k = "N/A") /\
  (forall m, In m demo_models -> "" <> "" ->
     matches_search "" m = true <->
     exists k s, In k name_fields /\ field m k = Some (JStr s) /\
                 str_in (lower "") (lower s) = true) /\
  (forall m, In m demo_models ->
     table_row m = map (fun k => default (JStr "N/A") (field m k)) name_fields).
Proof.
  apply (list_models_missing_fields demo_world initial_state).
  - reflexivity.
  - exact demo_models_records.
Defined.

(** A record with only a provider is listed with N/A in the other columns. *)
Example list_models_shows_na :
  printed (main demo_world (Invocation None (ListModels "openai")))
  = [ EchoTable ["Provider"; "Model Family"; "Model Name"]
        [ [JStr "OpenAI"; JStr "o-series"; JStr "GPT-4"];
          [JStr "OpenAI"; JStr "N/A"; JStr "N/A"] ];
      Echo (String "010" "Total models: 2") ].
Proof. reflexivity. Qed.

(** ** search *)

(** [search] makes exactly one call of the session, the POST of the payload,
    whether or not the service answers. *)
Lemma search_log w c st :
  log (snd (search w c st)) = log st ++ [search_request w c st].
Proof.
  unfold search, search_models, try_except.
  pose proof (call_state w (env_api_key w) POST "/api/agents/search"
                (Some (JObj (search_payload c))) st) as Hst.
  pose proof (call_raises w (env_api_key w) POST "/api/agents/search"
                (Some (JObj (search_payload c))) st) as Hex.
  unfold bind at 1.
  destruct (call _ _ _ _ _ st) as [[v | e] st1]; simpl in Hst; subst st1.
  - done.
  - unfold on_request_exception. by rewrite (Hex e eq_refl).
Qed.

Lemma search_payload_get c f :
  dict_get (field_key f) (search_payload c)
  = Some (default JNull (field_value c f)).
Proof.
  destruct c as [p a b x y t1 t2 t3 t4 t5 t6 t7].
  destruct f; simpl;
    match goal with |- Some (or_null _ ?o) = _ => by destruct o end.
Qed.

Lemma field_value_not_null c f : field_value c f <> Some JNull.
Proof.
  destruct c as [p a b x y t1 t2 t3 t4 t5 t6 t7].
  destruct f; simpl;
    match goal with |- _ <$> ?o <> _ => by destruct o end.
Qed.

(** C1, as amended: the body of the search request carries the key of every
    criterion, set or not.  A criterion that was set carries its value; one
    that was not set carries null, and only such a one does.  No key is left
    out. *)
Theorem search_sends_every_criterion_key w c st f :
  exists body,
    last (log (snd (search w c st)))
    = Some (Request POST (base_url st ++ "/api/agents/search") (env_api_key w)
                    (Some (JObj body))) /\
    dict_get (field_key f) body = Some (default JNull (field_value c f)) /\
    (dict_get (field_key f) body = Some JNull <-> field_value c f = None).
Proof.
  exists (search_payload c). rewrite search_log, last_snoc.
  split; [done|]. rewrite search_payload_get. split; [done|].
  pose proof (field_value_not_null c f).
  destruct (field_value c f); simpl; split; congruence.
Qed.

(** C1, as stated, fails: a search without flags sends every criterion key,
    with the value null, instead of leaving the keys out. *)
Lemma search_does_not_omit_unset_fields :
  sent (main demo_world (Invocation None (Search no_flags)))
  = [ Request POST "https://agentcomparer.com/api/agents/search"
              (Some "secret") (Some (JObj (search_payload no_flags))) ] /\
  dict_get "provider" (search_payload no_flags) = Some JNull /\
  ~ omits_unset_fields no_flags (search_payload no_flags).
Proof.
  split; [reflexivity|]. split; [reflexivity|].
  intros H. by specialize (H FProvider eq_refl).
Qed.

(** C2: every run of [search] POSTs one JSON body to the search endpoint.
    The body holds the metadata envelope followed by the twelve criteria
    keys; each key carries the value given on the command line, and null when
    none was given.  Without any flag the body is the envelope and twelve
    nulls. *)
Theorem search_posts_envelope_and_all_criteria w c st :
  log (snd (search w c st))
  = log st ++ [ Request POST (base_url st ++ "/api/agents/search")
                        (env_api_key w) (Some (JObj (search_payload c))) ] /\
  dict_keys (search_payload c) = "metadata" :: map field_key all_fields /\
  dict_get "metadata" (search_payload c) = Some search_envelope /\
  Forall (fun f =>
            dict_get (field_key f) (search_payload c)
            = Some (default JNull (field_value c f))) all_fields /\
  search_payload no_flags
  = ("metadata", search_envelope) :: map (fun f => (field_key f, JNull)) all_fields.
Proof.
  split; [apply search_log|]. split; [done|]. split; [done|].
  split; [|done].
  apply Forall_forall. intros f _. apply search_payload_get.
Qed.

(** A search without flags, as it leaves the process. *)
Example search_no_flags_request :
  sent (main demo_world (Invocation None (Search no_flags)))
  = [ Request POST "https://agentcomparer.com/api/agents/search" (Some "secret")
        (Some (JObj
           [ ("metadata", JObj [("agent_id", JStr "cli"); ("task_id", JStr "search")]);
             ("provider", JNull); ("min_context", JNull); ("max_context", JNull);
             ("min_output_tokens", JNull); ("max_output_tokens", JNull);
             ("tools", JNull); ("multilingual", JNull); ("audio", JNull);
             ("vision", JNull); ("reasoning", JNull); ("fine_tuning", JNull);
             ("realtime_streaming", JNull) ])) ].
Proof. reflexivity. Qed.

(** ** The credential *)

Lemma cli_configured w srv st :
  key_configured w ->
  cli w srv st
  = (Ok tt, if truthy (or_null JStr srv)
            then State (default "" srv) (out st) (log st) (heap st)
            else st).
Proof.
  intros (k & E & Hk). unfold cli. rewrite E. simpl.
  destruct (String.eqb_spec k "") as [? | _]; [done|]. simpl.
  by destruct (truthy (or_null JStr srv)).
Qed.

Lemma main_configured w srv c :
  key_configured w ->
  main w (Invocation srv c)
  = let '(r, st) := invoke w c (started srv) in
    Outcome (ending_of r) (out st) (log st).
Proof.
  intros Hk. unfold main. simpl.
  erewrite bind_ok by (by apply cli_configured). done.
Qed.

Lemma started_eq srv : started srv = State (base_of srv) [] [] [].
Proof.
  unfold started, base_of. destruct srv as [s|]; simpl; [|done].
  by destruct (String.eqb s "").
Qed.

(** C8: when the credential variable is unset or empty, every run ends with
    the configuration error and a non-zero status; no subcommand has run,
    nothing was printed and no request was attempted. *)
Theorem missing_api_key_is_fatal w inv :
  env_api_key w = None \/ env_api_key w = Some "" ->
  main w inv
  = Outcome (ErrorMessage "COMPARER_API_KEY environment variable not set") [] [] /\
  exit_status (ended (main w inv)) <> 0.
Proof.
  intros H.
  assert (main w inv
          = Outcome (ErrorMessage "COMPARER_API_KEY environment variable not set")
                    [] []) as E.
  { unfold main, cli, bind. by destruct H as [-> | ->]. }
  rewrite E. by split.
Qed.

Lemma missing_api_key_is_fatal_witness :
  main unconfigured_world (Invocation None ListProviders)
  = Outcome (ErrorMessage "COMPARER_API_KEY environment variable not set") [] [] /\
  exit_status (ended (main unconfigured_world (Invocation None ListProviders))) <> 0.
Proof.
  apply (missing_api_key_is_fatal unconfigured_world).
  left. reflexivity.
Defined.

(** ** compare and calculate *)

Lemma json_load_malformed w spec contents why st :
  fs w spec = Regular contents ->
  json_loads w contents = Malformed why ->
  json_load w spec st = (Raise (Exn JSONDecodeError why), st).
Proof.
  intros Hf Hj. unfold json_load, open_read. rewrite Hf.
  erewrite bind_ok by reflexivity. by rewrite Hj.
Qed.

Lemma path_exists_regular w spec contents st :
  fs w spec = Regular contents -> path_exists w spec st = (Ok tt, st).
Proof. intros Hf. unfold path_exists. by rewrite Hf. Qed.

Lemma json_load_undecodable w spec why st :
  fs w spec = Undecodable why ->
  json_load w spec st = (Raise (Exn UnicodeDecodeError why), st).
Proof.
  intros Hf. unfold json_load, open_read. rewrite Hf.
  erewrite bind_raise; reflexivity.
Qed.

Lemma path_exists_undecodable w spec why st :
  fs w spec = Undecodable why -> path_exists w spec st = (Ok tt, st).
Proof. intros Hf. unfold path_exists. by rewrite Hf. Qed.

(** C9 fails for a spec file that is not text.  A file that reads as text
    and is not valid JSON ends [compare] and [calculate] with the one-line
    error about reading the input file, as the claim says.  A file whose
    bytes do not decode raises [UnicodeDecodeError] while it is read; that
    is neither of the two exceptions of the first [except] clause nor a
    [requests] exception, so the run ends with an uncaught exception.  In
    both cases nothing is printed and no call of the session is made. *)
Theorem undecodable_spec_file_is_uncaught
    w srv bad why_text good contents why_json :
  key_configured w ->
  fs w bad = Undecodable why_text ->
  fs w good = Regular contents ->
  json_loads w contents = Malformed why_json ->
  main w (Invocation srv (Compare bad))
  = Outcome (Uncaught (Exn UnicodeDecodeError why_text)) [] [] /\
  main w (Invocation srv (Calculate bad))
  = Outcome (Uncaught (Exn UnicodeDecodeError why_text)) [] [] /\
  main w (Invocation srv (Compare good))
  = Outcome (ErrorMessage ("Error reading input file: " ++ why_json)) [] [] /\
  main w (Invocation srv (Calculate good))
  = Outcome (ErrorMessage ("Error reading input file: " ++ why_json)) [] [].
Proof.
  intros Hk Hbad Hgood Hj. rewrite !main_configured, started_eq by done.
  simpl invoke. unfold compare, calculate.
  repeat split.
  - erewrite bind_ok by (by eapply path_exists_undecodable).
    erewrite try_except_raise
      by (erewrite bind_raise; [reflexivity | by eapply json_load_undecodable]).
    reflexivity.
  - erewrite bind_ok by (by eapply path_exists_undecodable).
    erewrite try_except_raise
      by (erewrite bind_raise; [reflexivity | by eapply json_load_undecodable]).
    reflexivity.
  - erewrite bind_ok by (by eapply path_exists_regular).
    erewrite try_except_raise
      by (erewrite bind_raise; [reflexivity | by eapply json_load_malformed]).
    reflexivity.
  - erewrite bind_ok by (by eapply path_exists_regular).
    erewrite try_except_raise
      by (erewrite bind_raise; [reflexivity | by eapply json_load_malformed]).
    reflexivity.
Qed.

Lemma undecodable_spec_file_is_uncaught_witness :
  main demo_world (Invocation None (Compare "latin1.json"))
  = Outcome
      (Uncaught
         (Exn UnicodeDecodeError
            "'utf-8' codec can't decode byte 0xff in position 0: invalid start byte"))
      [] [] /\
  main demo_world (Invocation None (Calculate "latin1.json"))
  = Outcome
      (Uncaught
         (Exn UnicodeDecodeError
            "'utf-8' codec can't decode byte 0xff in position 0: invalid start byte"))
      [] [] /\
  main demo_world (Invocation None (Compare "broken.json"))
  = Outcome (ErrorMessage
               ("Error reading input file: "
                ++ "Expecting value: line 1 column 1 (char 0)")) [] [] /\
  main demo_world (Invocation None (Calculate "broken.json"))
  = Outcome (ErrorMessage
               ("Error reading input file: "
                ++ "Expecting value: line 1 column 1 (char 0)")) [] [].
Proof.
  apply (undecodable_spec_file_is_uncaught demo_world None
           "latin1.json"
           "'utf-8' codec can't decode byte 0xff in position 0: invalid start byte"
           "broken.json" "{ not json").
  - exists "secret". split; [reflexivity | discriminate].
  - reflexivity.
  - reflexivity.
  - reflexivity.
Defined.

(** ** Transport failures *)

Lemma call_unreachable w key meth path payload st cause :
  unreachable w cause ->
  call w key meth path payload st
  = (Raise (Exn RequestError cause),
     after_request st (Request meth (base_url st ++ path) key payload)).
Proof.
  intros H.
  rewrite (surjective_pairing (call w key meth path payload st)).
  by rewrite call_state, (call_transport_failure _ _ _ _ _ _ cause).
Qed.

Lemma json_load_parsed w spec contents v st :
  fs w spec = Regular contents -> json_loads w contents = Parsed v ->
  json_load w spec st = (Ok v, st).
Proof.
  intros Hf Hj. unfold json_load, open_read. rewrite Hf.
  erewrite bind_ok by reflexivity. by rewrite Hj.
Qed.

(** The body of a guarded command raises at its client call. *)
Ltac raise_in_body :=
  first
    [ by apply call_unreachable
    | erewrite bind_ok by (by eapply json_load_parsed); raise_in_body
    | erewrite bind_raise; [reflexivity | raise_in_body] ].

(** Every guarded command turns a transport failure into the one-line error
    message and prints nothing else. *)
Lemma guarded_reports_transport_failure w c cause st :
  unreachable w cause -> guarded w c ->
  exists st',
    invoke w c st
    = (Raise (Exn ClickException ("API request failed: " ++ cause)), st') /\
    out st' = out st.
Proof.
  intros Hw Hc.
  destruct Hc; simpl invoke;
    unfold list_models, list_providers, stats, search, compare, calculate,
      get_providers, get_models, get_stats, search_models, compare_models,
      calculate_price;
    try (erewrite bind_ok by (by eapply path_exists_regular));
    (erewrite try_except_raise by raise_in_body);
    eexists; (split; [reflexivity | done]).
Qed.

Lemma guarded_run_reports_transport_failure w srv c cause :
  key_configured w -> unreachable w cause -> guarded w c ->
  ended (main w (Invocation srv c))
  = ErrorMessage ("API request failed: " ++ cause) /\
  printed (main w (Invocation srv c)) = [].
Proof.
  intros Hk Hw Hc. rewrite main_configured by done.
  destruct (guarded_reports_transport_failure w c cause (started srv) Hw Hc)
    as (st' & -> & Ho).
  simpl. split; [done|]. rewrite Ho. unfold started. by destruct (truthy _).
Qed.

(** C7 fails for [sample-spec]: its call of [get_models] stands outside any
    [try], so that a transport failure leaves the command as the exception
    itself and the run ends with an uncaught [requests] exception instead of
    the one-line error message that the other six commands produce. *)
Theorem sample_spec_transport_failure_is_uncaught w srv kind cause :
  key_configured w -> unreachable w cause ->
  ended (main w (Invocation srv (SampleSpec kind)))
  = Uncaught (Exn RequestError cause) /\
  ended (main w (Invocation srv (ListModels "")))
  = ErrorMessage ("API request failed: " ++ cause).
Proof.
  intros Hk Hw. split.
  - rewrite main_configured by done. simpl invoke.
    unfold sample_spec, get_models.
    erewrite bind_raise by (by apply call_unreachable). done.
  - by apply guarded_run_reports_transport_failure; [| |constructor].
Qed.

Lemma sample_spec_transport_failure_is_uncaught_witness :
  ended (main offline_world (Invocation None (SampleSpec ForCompare)))
  = Uncaught (Exn RequestError "Connection refused") /\
  ended (main offline_world (Invocation None (ListModels "")))
  = ErrorMessage ("API request failed: " ++ "Connection refused").
Proof.
  apply (sample_spec_transport_failure_is_uncaught offline_world None ForCompare).
  - exists "secret". split; [reflexivity | discriminate].
  - intros req. reflexivity.
Defined.

(** ** Providers *)

Lemma counts_incr_text p cs :
  counts_incr (JStr p) (KStr p) (as_counts cs) = as_counts (tally_incr p cs).
Proof.
  induction cs as [|[q n] cs IH]; [done|]. simpl.
  destruct (decide (q = p)) as [-> | Hne].
  - by rewrite decide_True.
  - rewrite decide_False by congruence. simpl. by rewrite IH.
Qed.

Lemma count_providers_text models cs st :
  Forall has_text_provider models ->
  count_providers models (as_counts cs) st
  = (Ok (as_counts (tally (providers_of models) cs)), st).
Proof.
  intros H. revert cs. induction H as [|m models [p Hp] _ IH]; intros cs; [done|].
  unfold providers_of. simpl. rewrite Hp. simpl.
  unfold provider_text, field in Hp.
  destruct m as [| | | | |d]; try done.
  destruct (dict_get "provider" d) as [[| | |s| |]|] eqn:E; try done.
  injection Hp as ->.
  erewrite bind_ok by (unfold subscript_provider; rewrite E; reflexivity).
  simpl. rewrite counts_incr_text. apply IH.
Qed.

Lemma tally_incr_keys p cs q :
  q ∈ map fst (tally_incr p cs) <-> q = p \/ q ∈ map fst cs.
Proof.
  induction cs as [|[r n] cs IH]; simpl.
  - rewrite list_elem_of_singleton, elem_of_nil. tauto.
  - destruct (decide (r = p)) as [-> | Hne]; simpl.
    + rewrite !elem_of_cons. tauto.
    + rewrite !elem_of_cons, IH. tauto.
Qed.

Lemma tally_incr_NoDup p cs :
  NoDup (map fst cs) -> NoDup (map fst (tally_incr p cs)).
Proof.
  induction cs as [|[r n] cs IH]; simpl; intros H.
  - apply NoDup_singleton.
  - destruct (decide (r = p)) as [-> | Hne]; simpl; [done|].
    apply NoDup_cons in H as [Hr Hcs]. apply NoDup_cons. split; [|auto].
    rewrite tally_incr_keys. intros [? | ?]; done.
Qed.

Lemma tally_incr_get p cs q :
  tally_get q (tally_incr p cs)
  = tally_get q cs + (if decide (p = q) then 1 else 0).
Proof.
  induction cs as [|[r n] cs IH]; simpl.
  - repeat case_decide; done.
  - destruct (decide (r = p)) as [-> | Hne]; simpl.
    + repeat case_decide; try done; lia.
    + rewrite IH. repeat case_decide; try done; congruence.
Qed.

Lemma tally_incr_sum p cs :
  sum_list (map snd (tally_incr p cs)) = S (sum_list (map snd cs)).
Proof.
  induction cs as [|[r n] cs IH]; simpl; [done|].
  case_decide; simpl; [lia | rewrite IH; lia].
Qed.

Lemma tally_keys ps cs q :
  q ∈ map fst (tally ps cs) <-> q ∈ ps \/ q ∈ map fst cs.
Proof.
  revert cs. induction ps as [|p ps IH]; intros cs; simpl.
  - rewrite elem_of_nil. tauto.
  - rewrite IH, tally_incr_keys, elem_of_cons. tauto.
Qed.

Lemma tally_NoDup ps cs :
  NoDup (map fst cs) -> NoDup (map fst (tally ps cs)).
Proof.
  revert cs. induction ps as [|p ps IH]; intros cs H; simpl; [done|].
  apply IH. by apply tally_incr_NoDup.
Qed.

Lemma tally_get_count ps cs q :
  tally_get q (tally ps cs)
  = tally_get q cs + length (List.filter (fun p => bool_decide (p = q)) ps).
Proof.
  revert cs. induction ps as [|p ps IH]; intros cs; simpl; [lia|].
  rewrite IH, tally_incr_get.
  destruct (decide (p = q)) as [-> | Hne].
  - rewrite bool_decide_eq_true_2 by done. simpl. lia.
  - rewrite bool_decide_eq_false_2 by done. lia.
Qed.

Lemma tally_sum ps cs :
  sum_list (map snd (tally ps cs)) = sum_list (map snd cs) + length ps.
Proof.
  revert cs. induction ps as [|p ps IH]; intros cs; simpl; [lia|].
  rewrite IH, tally_incr_sum. lia.
Qed.

(** With distinct keys, an entry is what [tally_get] reads. *)
Lemma tally_get_entry cs p n :
  NoDup (map fst cs) -> (p, n) ∈ cs -> tally_get p cs = n.
Proof.
  induction cs as [|[r k] cs IH]; simpl; intros Hnd Hin.
  - by apply elem_of_nil in Hin.
  - apply NoDup_cons in Hnd as [Hr Hcs].
    apply elem_of_cons in Hin as [[= -> ->] | Hin].
    + by rewrite decide_True.
    + rewrite decide_False; [auto|].
      intros ->. apply Hr. apply list_elem_of_fmap. by exists (p, n).
Qed.

(** The records of one provider, counted on the list of provider names. *)
Lemma models_of_length p models :
  length (models_of p models)
  = length (List.filter (fun q => bool_decide (q = p)) (providers_of models)).
Proof.
  unfold models_of, providers_of.
  induction models as [|m models IH]; simpl; [done|].
  destruct (provider_text m) as [q|] eqn:E; simpl.
  - destruct (decide (q = p)) as [-> | Hne].
    + rewrite !bool_decide_eq_true_2 by done. simpl. by rewrite IH.
    + rewrite !bool_decide_eq_false_2 by congruence. done.
  - done.
Qed.

Lemma providers_of_length models :
  Forall has_text_provider models ->
  length (providers_of models) = length models.
Proof.
  unfold providers_of.
  induction 1 as [|m models [p Hp] _ IH]; simpl; [done|].
  rewrite Hp. simpl. f_equal. exact IH.
Qed.

(** The run of [get_providers] on records that name their provider. *)
Lemma get_providers_run w st st1 models :
  get_models w (env_api_key w) st = (Ok (JArr models), st1) ->
  Forall has_text_provider models ->
  get_providers w (env_api_key w) st
  = (Ok (as_counts (tally (providers_of models) [])), st1).
Proof.
  intros Hget Hp. unfold get_providers.
  erewrite bind_ok by exact Hget.
  erewrite bind_ok by reflexivity.
  by apply (count_providers_text models []).
Qed.

Lemma as_counts_keys cs : map fst (as_counts cs) = map JStr (map fst cs).
Proof. unfold as_counts. rewrite !map_map. done. Qed.

Lemma as_counts_sum cs : map snd (as_counts cs) = map snd cs.
Proof. unfold as_counts. rewrite map_map. done. Qed.

Lemma as_counts_entry cs k n :
  (k, n) ∈ as_counts cs -> exists p, k = JStr p /\ (p, n) ∈ cs.
Proof.
  unfold as_counts. intros H. apply list_elem_of_In, in_map_iff in H.
  destruct H as ([p n'] & [= <- <-] & Hin).
  exists p. split; [done|]. by apply list_elem_of_In.
Qed.

Global Instance JStr_inj : Inj (=) (=) JStr.
Proof. by intros s t [= ->]. Qed.

(** The entries of the tally are as many as there are distinct names. *)
Lemma tally_length ps :
  length (tally ps []) = size (list_to_set ps : gset string).
Proof.
  rewrite <- (length_map fst).
  rewrite <- (size_list_to_set (C := gset string))
    by (apply tally_NoDup; constructor).
  f_equal. apply set_eq. intros p.
  rewrite !elem_of_list_to_set, tally_keys, elem_of_nil. tauto.
Qed.

Lemma tally_submseteq ps : map fst (tally ps []) ⊆+ ps.
Proof.
  apply NoDup_submseteq; [apply tally_NoDup; constructor|].
  intros p. rewrite tally_keys, elem_of_nil. tauto.
Qed.

(** C4: on a model list whose records name their provider, [get_providers]
    returns a mapping, not a list of names: its keys are pairwise distinct,
    they are exactly the provider values that occur in the list, and each key
    carries the number of records of that provider. *)
Theorem get_providers_counts_models_per_provider w st st1 models :
  get_models w (env_api_key w) st = (Ok (JArr models), st1) ->
  Forall has_text_provider models ->
  exists counts : list (json * nat),
    get_providers w (env_api_key w) st = (Ok counts, st1) /\
    NoDup (map fst counts) /\
    (forall k, k ∈ map fst counts <->
               exists p, k = JStr p /\ p ∈ distinct_providers models) /\
    (forall k n, (k, n) ∈ counts ->
                 exists p, k = JStr p /\ n = length (models_of p models)).
Proof.
  intros Hget Hp. exists (as_counts (tally (providers_of models) [])).
  split; [by apply get_providers_run|].
  pose proof (tally_NoDup (providers_of models) [] (NoDup_nil_2)) as Hnd.
  split; [|split].
  - rewrite as_counts_keys. by apply (NoDup_fmap_2 JStr).
  - intros k. rewrite as_counts_keys. unfold distinct_providers.
    setoid_rewrite elem_of_list_to_set. split.
    + intros H. apply list_elem_of_In, in_map_iff in H as (p & <- & Hin).
      exists p. split; [done|].
      apply list_elem_of_In, tally_keys in Hin as [? | Hin]; [done|].
      by apply elem_of_nil in Hin.
    + intros (p & -> & Hin). apply list_elem_of_In, in_map.
      apply list_elem_of_In, tally_keys. by left.
  - intros k n Hin. apply as_counts_entry in Hin as (p & -> & Hin).
    exists p. split; [done|].
    rewrite models_of_length.
    rewrite <- (tally_get_entry _ _ _ Hnd Hin), tally_get_count. done.
Qed.

Lemma get_providers_counts_models_per_provider_witness :
  exists counts : list (json * nat),
    get_providers demo_world (env_api_key demo_world) initial_state
    = (Ok counts,
       after_request initial_state
         (Request GET "https://agentcomparer.com/api/models/list"
                  (Some "secret") None)) /\
    NoDup (map fst counts) /\
    (forall k, k ∈ map fst counts <->
               exists p, k = JStr p /\ p ∈ distinct_providers demo_models) /\
    (forall k n, (k, n) ∈ counts ->
                 exists p, k = JStr p /\ n = length (models_of p demo_models)).
Proof.
  apply (get_providers_counts_models_per_provider demo_world initial_state).
  - reflexivity.
  - repeat constructor; by eexists.
Defined.

(** Two of the three example models are OpenAI's. *)
Example get_providers_demo :
  fst (get_providers demo_world (Some "secret") initial_state)
  = Ok [(JStr "OpenAI", 2); (JStr "Anthropic", 1)].
Proof. reflexivity. Qed.

(** The run of [list-providers] on records that name their provider. *)
Lemma list_providers_run w st st1 models :
  get_models w (env_api_key w) st = (Ok (JArr models), st1) ->
  Forall has_text_provider models ->
  list_providers w st
  = (Ok tt,
     after_output st1
       match models with
       | [] => [Echo "No providers available"]
       | _ =>
           [EchoTable ["Provider"; "Models"]
              (provider_rows (as_counts (tally (providers_of models) [])));
            Echo (String "010" "Total providers: "
                  ++ str_of_nat (size (distinct_providers models)))]
       end).
Proof.
  intros Hget Hp. unfold list_providers. apply try_except_ok.
  erewrite bind_ok by (by apply get_providers_run).
  unfold distinct_providers. rewrite <- tally_length.
  destruct models as [|m models]; [done|].
  destruct (tally (providers_of (m :: models)) []) as [|c cs] eqn:E.
  - exfalso. apply Forall_cons in Hp as [[p Hm] _].
    assert (p ∈ map fst (tally (providers_of (m :: models)) [])) as Hin.
    { apply tally_keys. left. unfold providers_of. simpl. rewrite Hm.
      apply elem_of_cons. by left. }
    rewrite E in Hin. by apply elem_of_nil in Hin.
  - change (as_counts (c :: cs)) with ((JStr (fst c), snd c) :: as_counts cs).
    cbv iota.
    erewrite bind_ok by apply echo_run.
    rewrite echo_run, after_output_app. simpl.
    unfold as_counts at 2. by rewrite length_map.
Qed.

(** C5: the total printed by [list-providers] is the number of distinct
    provider values of the model list.  The per-provider counts of the table
    add up to the number of records, so that the total is never more than
    their sum, and equals it only when no two records share a provider. *)
Theorem list_providers_total_is_number_of_distinct_providers
    w st st1 models :
  get_models w (env_api_key w) st = (Ok (JArr models), st1) ->
  Forall has_text_provider models ->
  exists counts : list (json * nat),
    list_providers w st
    = (Ok tt,
       after_output st1
         match models with
         | [] => [Echo "No providers available"]
         | _ =>
             [EchoTable ["Provider"; "Models"] (provider_rows counts);
              Echo (String "010" "Total providers: "
                    ++ str_of_nat (size (distinct_providers models)))]
         end) /\
    sum_list (map snd counts) = length models /\
    size (distinct_providers models) <= sum_list (map snd counts) /\
    (size (distinct_providers models) = sum_list (map snd counts) ->
     NoDup (providers_of models)).
Proof.
  intros Hget Hp. exists (as_counts (tally (providers_of models) [])).
  split; [by apply list_providers_run|].
  rewrite as_counts_sum, tally_sum. simpl.
  unfold distinct_providers. rewrite <- tally_length, <- (length_map fst).
  pose proof (tally_submseteq (providers_of models)) as Hsub.
  pose proof (submseteq_length _ _ Hsub) as Hle.
  rewrite providers_of_length in * by done.
  split; [done|]. split; [done|].
  intros Heq. rewrite <- (providers_of_length models) in Heq by done.
  rewrite <- (submseteq_length_Permutation _ _ Hsub) by lia.
  apply tally_NoDup. constructor.
Qed.

Lemma list_providers_total_is_number_of_distinct_providers_witness :
  exists counts : list (json * nat),
    list_providers demo_world initial_state
    = (Ok tt,
       after_output
         (after_request initial_state
            (Request GET "https://agentcomparer.com/api/models/list"
                     (Some "secret") None))
         match demo_models with
         | [] => [Echo "No providers available"]
         | _ =>
             [EchoTable ["Provider"; "Models"] (provider_rows counts);
              Echo (String "010" "Total providers: "
                    ++ str_of_nat (size (distinct_providers demo_models)))]
         end) /\
    sum_list (map snd counts) = length demo_models /\
    size (distinct_providers demo_models) <= sum_list (map snd counts) /\
    (size (distinct_providers demo_models) = sum_list (map snd counts) ->
     NoDup (providers_of demo_models)).
Proof.
  apply (list_providers_total_is_number_of_distinct_providers
           demo_world initial_state).
  - reflexivity.
  - repeat constructor; by eexists.
Defined.

(** Three models of two providers: the total is 2, the counts add up to 3. *)
Example list_providers_demo :
  printed (main demo_world (Invocation None ListProviders))
  = [ EchoTable ["Provider"; "Models"]
        [[JStr "OpenAI"; JInt 2]; [JStr "Anthropic"; JInt 1]];
      Echo (String "010" "Total providers: 2") ].
Proof. reflexivity. Qed.

(** ** sample-spec *)

Local Arguments randbelow : simpl never.

Lemma randbelow_lt rand i m : m <> 0 -> randbelow rand i m < m.
Proof. intros. unfold randbelow. by apply Nat.mod_upper_bound. Qed.

Lemma dict_get_set k k' v d :
  dict_get k (dict_set k' v d)
  = if String.eqb k k' then Some v else dict_get k d.
Proof.
  induction d as [|[q x] d IH]; simpl.
  - done.
  - destruct (String.eqb_spec k' q) as [-> | Hne]; simpl.
    + by destruct (String.eqb k q).
    + rewrite IH. destruct (String.eqb_spec k q) as [-> | ?]; [|done].
      destruct (String.eqb_spec q k'); congruence.
Qed.

Lemma with_tokens_get input output d :
  dict_get "input_tokens" (with_tokens input output d) = Some (JInt input) /\
  dict_get "output_tokens" (with_tokens input output d) = Some (JInt output) /\
  forall k, k <> "input_tokens" -> k <> "output_tokens" ->
            dict_get k (with_tokens input output d) = dict_get k d.
Proof.
  unfold with_tokens, dict_update. simpl. rewrite !dict_get_set.
  split; [done|]. split; [done|]. intros k H1 H2. rewrite !dict_get_set.
  destruct (String.eqb_spec k "output_tokens"); [done|].
  destruct (String.eqb_spec k "input_tokens"); done.
Qed.

(** Sampling commutes with renaming the elements of the population. *)
Lemma sample_loop_map {A B} (f : A -> B) rand (pool : list A) n i k :
  sample_loop rand (map f pool) n i k = map f (sample_loop rand pool n i k).
Proof.
  revert pool i. induction k as [|k IH]; intros pool i; [done|].
  cbn [sample_loop]. change (map f pool) with (f <$> pool).
  rewrite !list_lookup_fmap.
  destruct (pool !! randbelow rand i (n - i)) as [x|]; [|done].
  destruct (pool !! (n - i - 1)) as [y|]; [|done]. simpl.
  f_equal. rewrite <- IH. f_equal. by rewrite list_fmap_insert.
Qed.

(** Two elements sampled from a population of at least two. *)
Lemma sample_loop_two {A} rand (pool : list A) n :
  length pool = n -> 2 <= n ->
  exists x y,
    pool !! fst (picks n (randbelow rand 0 n) (randbelow rand 1 (n - 1))) = Some x /\
    pool !! snd (picks n (randbelow rand 0 n) (randbelow rand 1 (n - 1))) = Some y /\
    sample_loop rand pool n 0 2 = [x; y].
Proof.
  intros Hlen Hn. unfold picks. cbn [fst snd sample_loop].
  replace (n - 0) with n by lia. replace (n - 1 - 1) with (n - 2) by lia.
  pose proof (randbelow_lt rand 0 n) as H0.
  pose proof (randbelow_lt rand 1 (n - 1)) as H1.
  set (j0 := randbelow rand 0 n) in *. set (j1 := randbelow rand 1 (n - 1)) in *.
  destruct (lookup_lt_is_Some_2 pool j0) as [x Hx]; [lia|].
  destruct (lookup_lt_is_Some_2 pool (n - 1)) as [z Hz]; [lia|].
  destruct (lookup_lt_is_Some_2 pool j1) as [y Hy]; [lia|].
  destruct (lookup_lt_is_Some_2 (<[j0 := z]> pool) (n - 2)) as [u Hu];
    [rewrite length_insert; lia|].
  rewrite Hx, Hz, Hu.
  destruct (decide (j1 = j0)) as [E | Hne].
  - exists x, z. rewrite E, list_lookup_insert_eq by lia. done.
  - exists x, y. rewrite list_lookup_insert_ne, Hy by done. done.
Qed.

Lemma picks_distinct n j0 j1 :
  j0 < n -> j1 < n - 1 ->
  fst (picks n j0 j1) <> snd (picks n j0 j1) /\
  fst (picks n j0 j1) < n /\ snd (picks n j0 j1) < n.
Proof. unfold picks. simpl. case_decide; lia. Qed.

(** The positions sampled from a population of [n]. *)
Lemma sample_positions rand n :
  2 <= n ->
  sample_loop rand (seq 0 n) n 0 2
  = [ fst (picks n (randbelow rand 0 n) (randbelow rand 1 (n - 1)));
      snd (picks n (randbelow rand 0 n) (randbelow rand 1 (n - 1))) ].
Proof.
  intros Hn.
  destruct (sample_loop_two rand (seq 0 n) n) as (x & y & Hx & Hy & ->);
    [by rewrite length_seq | done |].
  apply lookup_seq in Hx as [-> _]. apply lookup_seq in Hy as [-> _]. done.
Qed.

(** Every ordered pair of distinct positions is selected by exactly one pair
    of draws. *)
Lemma picks_bijective n a b :
  a < n -> b < n -> a <> b ->
  exists j0 j1,
    j0 < n /\ j1 < n - 1 /\ picks n j0 j1 = (a, b) /\
    forall i0 i1, i0 < n -> i1 < n - 1 -> picks n i0 i1 = (a, b) ->
                  i0 = j0 /\ i1 = j1.
Proof.
  intros Ha Hb Hab. unfold picks.
  exists a, (if decide (b = n - 1) then a else b).
  split; [done|]. split; [case_decide; lia|]. split.
  - repeat case_decide; f_equal; lia.
  - intros i0 i1 H0 H1 [= -> E]. split; [done|].
    repeat case_decide; lia.
Qed.

Lemma obj_update_run r d other st :
  heap st !! r = Some (JObj d) ->
  obj_update r other st
  = (Ok tt, State (base_url st) (out st) (log st)
              (<[r := JObj (dict_update d other)]> (heap st))).
Proof. intros H. unfold obj_update. by rewrite H. Qed.

Local Arguments setsize : simpl never.

Lemma setsize_two : setsize 2 = 21.
Proof. reflexivity. Qed.

Lemma seq_offset h n : map (fun i => h + i) (seq 0 n) = seq h n.
Proof.
  change (map (fun i => h + i) (seq 0 n)) with ((fun i => h + i) <$> seq 0 n).
  rewrite fmap_add_seq. f_equal. lia.
Qed.

(** Selecting commutes with renaming the elements of the population. *)
Lemma select_loop_map {A B} (f : A -> B) rand limit (pop : list A) n sel i k :
  select_loop rand limit (map f pop) n sel i k
  = option_map (map f) (select_loop rand limit pop n sel i k).
Proof.
  revert sel i. induction k as [|k IH]; intros sel i; [done|].
  cbn [select_loop]. destruct (redraw rand n sel i limit) as [[j i']|]; [|done].
  change (map f pop) with (f <$> pop). rewrite list_lookup_fmap.
  change (f <$> pop) with (map f pop). rewrite IH.
  destruct (pop !! j); [|done].
  by destruct (select_loop rand limit pop n (j :: sel) i' k).
Qed.

Lemma random_choice_map {A B} (f : A -> B) rand limit (pop : list A) k :
  random_choice rand limit (map f pop) k
  = option_map (map f) (random_choice rand limit pop k).
Proof.
  unfold random_choice. rewrite length_map.
  destruct (_ <=? _); simpl.
  - by rewrite sample_loop_map.
  - apply select_loop_map.
Qed.

(** Redrawing with nothing selected takes the first draw. *)
Lemma redraw_first rand n i fuel :
  0 < fuel -> redraw rand n [] i fuel = Some (randbelow rand i n, S i).
Proof.
  destruct fuel as [|fuel]; [lia|]. intros _. cbn [redraw].
  by rewrite bool_decide_eq_false_2 by apply not_elem_of_nil.
Qed.

(** Redrawing with [a] selected skips the draws equal to [a]. *)
Lemma redraw_one rand n a i fuel b i' :
  redraw rand n [a] i fuel = Some (b, i') <->
  exists r, r < fuel /\
            (forall t, t < r -> randbelow rand (i + t) n = a) /\
            randbelow rand (i + r) n = b /\ b <> a /\ i' = S (i + r).
Proof.
  revert i. induction fuel as [|fuel IH]; intros i; cbn [redraw].
  - split; [done | intros (r & ? & _); lia].
  - destruct (decide (randbelow rand i n = a)) as [E | Hne].
    + rewrite bool_decide_eq_true_2 by (rewrite E; apply list_elem_of_singleton; done).
      rewrite IH. split.
      * intros (r & Hr & Hrep & Hb & Hba & ->). exists (S r).
        split; [lia|]. split.
        -- intros [|t] Ht; [by rewrite Nat.add_0_r|].
           replace (i + S t) with (S i + t) by lia. apply Hrep. lia.
        -- replace (i + S r) with (S i + r) by lia. done.
      * intros ([|r] & Hr & Hrep & Hb & Hba & ->).
        { rewrite Nat.add_0_r in Hb. congruence. }
        exists r. split; [lia|]. split.
        -- intros t Ht. replace (S i + t) with (i + S t) by lia. apply Hrep. lia.
        -- replace (S i + r) with (i + S r) by lia. done.
    + rewrite bool_decide_eq_false_2
        by (rewrite list_elem_of_singleton; done).
      split.
      * intros [= <- <-]. exists 0. rewrite Nat.add_0_r.
        split; [lia|]. split; [intros t ?; lia | done].
      * intros ([|r] & Hr & Hrep & Hb & Hba & ->).
        -- rewrite Nat.add_0_r in *. by rewrite Hb.
        -- specialize (Hrep 0 ltac:(lia)). rewrite Nat.add_0_r in Hrep. done.
Qed.

(** Two elements selected from a large population. *)
Lemma select_loop_two {A} rand limit (pop : list A) n a b x y r :
  0 < limit -> r < limit ->
  randbelow rand 0 n = a ->
  (forall t, t < r -> randbelow rand (1 + t) n = a) ->
  randbelow rand (1 + r) n = b -> b <> a ->
  pop !! a = Some x -> pop !! b = Some y ->
  select_loop rand limit pop n [] 0 2 = Some [x; y].
Proof.
  intros Hl Hr Ha Hrep Hb Hba Hx Hy. cbn [select_loop].
  rewrite redraw_first, Ha, Hx by done.
  assert (redraw rand n [a] 1 limit = Some (b, S (1 + r))) as ->.
  { apply redraw_one. exists r. done. }
  by rewrite Hy.
Qed.

Lemma select_loop_two_inv {A} rand limit (pop : list A) n l :
  select_loop rand limit pop n [] 0 2 = Some l ->
  exists a b x y r,
    l = [x; y] /\ 0 < limit /\ r < limit /\
    randbelow rand 0 n = a /\
    (forall t, t < r -> randbelow rand (1 + t) n = a) /\
    randbelow rand (1 + r) n = b /\ b <> a /\
    pop !! a = Some x /\ pop !! b = Some y.
Proof.
  cbn [select_loop]. destruct limit as [|limit]; [done|].
  rewrite redraw_first by lia.
  destruct (redraw rand n [randbelow rand 0 n] 1 (S limit))
    as [[b i']|] eqn:E; cycle 1.
  { by destruct (pop !! _). }
  apply redraw_one in E as (r & Hr & Hrep & Hb & Hba & ->).
  destruct (pop !! randbelow rand 0 n) as [x|] eqn:Hx; [|done].
  destruct (pop !! b) as [y|] eqn:Hy; [|done].
  intros [= <-]. exists (randbelow rand 0 n), b, x, y, r.
  repeat split; try done; lia.
Qed.

(** Among the draws 1 to [m], either all repeat [a] or there is a first
    that does not. *)
Lemma first_other_draw rand n a m :
  (forall t, t < m -> randbelow rand (1 + t) n = a) \/
  exists r, r < m /\
            (forall t, t < r -> randbelow rand (1 + t) n = a) /\
            randbelow rand (1 + r) n <> a.
Proof.
  induction m as [|m [Hall | (r & Hr & Hrep & Hb)]].
  - left. intros t Ht. lia.
  - destruct (decide (randbelow rand (1 + m) n = a)) as [E | Hne].
    + left. intros t Ht. destruct (decide (t = m)) as [-> | ?]; [done|].
      apply Hall. lia.
    + right. exists m. split; [lia | done].
  - right. exists r. split; [lia | done].
Qed.

(** The selection of two out of [n] ends with two different positions. *)
Lemma random_choice_positions rand limit n :
  2 <= n -> selection_ends rand limit n ->
  exists a b,
    random_choice rand limit (seq 0 n) 2 = Some [a; b] /\
    a <> b /\ a < n /\ b < n.
Proof.
  intros Hn Hends. unfold random_choice. rewrite length_seq, setsize_two.
  destruct (Nat.leb_spec n 21) as [Hsmall | Hlarge].
  - rewrite sample_positions by done.
    destruct (picks_distinct n (randbelow rand 0 n) (randbelow rand 1 (n - 1)))
      as (Hab & Ha & Hb); [apply randbelow_lt; lia..|].
    eexists _, _. split; [reflexivity | done].
  - destruct Hends as [? | [Hl (i & Hi & Hdiff)]];
      [rewrite setsize_two in *; lia|].
    destruct (first_other_draw rand n (randbelow rand 0 n) limit)
      as [Hall | (r & Hr & Hrep & Hb)].
    { destruct Hdiff. replace i with (1 + (i - 1)) by lia. apply Hall. lia. }
    assert (randbelow rand 0 n < n) as Ha by (apply randbelow_lt; lia).
    assert (randbelow rand (1 + r) n < n) as Hb' by (apply randbelow_lt; lia).
    exists (randbelow rand 0 n), (randbelow rand (1 + r) n).
    split; [|by auto].
    eapply select_loop_two; eauto; by apply lookup_seq_lt.
Qed.

(** Which draws give which positions in a small population. *)
Lemma random_choice_small rnd limit n :
  2 <= n -> n <= 21 ->
  random_choice rnd limit (seq 0 n) 2
  = Some [ fst (picks n (randbelow rnd 0 n) (randbelow rnd 1 (n - 1)));
           snd (picks n (randbelow rnd 0 n) (randbelow rnd 1 (n - 1))) ].
Proof.
  intros Hn Hs. unfold random_choice. rewrite length_seq, setsize_two.
  destruct (Nat.leb_spec n 21); [|lia]. by rewrite sample_positions.
Qed.

(** Which draws give which positions in a large population. *)
Lemma random_choice_large rnd limit n a b :
  21 < n -> a < n -> b < n -> a <> b ->
  random_choice rnd limit (seq 0 n) 2 = Some [a; b] <->
  0 < limit /\ randbelow rnd 0 n = a /\
  exists r, r < limit /\
            (forall t, t < r -> randbelow rnd (1 + t) n = a) /\
            randbelow rnd (1 + r) n = b.
Proof.
  intros Hn Ha Hb Hab. unfold random_choice. rewrite length_seq, setsize_two.
  destruct (Nat.leb_spec n 21); [lia|]. split.
  - intros Hsel. apply select_loop_two_inv in Hsel
      as (a' & b' & x & y & r & Hxy & Hl & Hr & Ha' & Hrep & Hb' & Hne & Hx & Hy).
    injection Hxy as <- <-.
    apply lookup_seq in Hx as [Hx _]. apply lookup_seq in Hy as [Hy _].
    simpl in Hx, Hy. subst a' b'.
    split; [done|]. split; [done|]. exists r.
    split; [done|]. split; [|done]. intros t Ht. rewrite Hx. by apply Hrep.
  - intros (Hl & Ha' & r & Hr & Hrep & Hb').
    eapply select_loop_two; eauto; by apply lookup_seq_lt.
Qed.

(** The generator can return any value below its bound, draw by draw. *)
Lemma randbelow_any (d : nat -> nat) :
  exists rnd, forall i m, d i < m -> randbelow rnd i m = d i.
Proof. exists d. intros i m H. unfold randbelow. by apply Nat.mod_small. Qed.

Lemma random_sample_ends {A} rand limit (population : list A) k sample st :
  k <= length population ->
  random_choice rand limit population k = Some sample ->
  random_sample rand limit population k st = (Ok sample, st).
Proof.
  intros Hk Hc. unfold random_sample.
  destruct (Nat.ltb_spec (length population) k); [lia|]. by rewrite Hc.
Qed.

(** The run of [sample-spec calculate] on a list of at least two objects:
    the positions [a] and [b] are the ones sampled, and the two objects at
    these positions are printed with their token counts. *)
Lemma sample_spec_calculate_run w st st1 models :
  get_models w (env_api_key w) st = (Ok (JArr models), st1) ->
  2 <= length models ->
  Forall is_object models ->
  selection_ends (rand w) (patience w) (length models) ->
  exists a b da db,
    random_choice (rand w) (patience w) (seq 0 (length models)) 2
    = Some [a; b] /\
    a <> b /\
    models !! a = Some (JObj da) /\
    models !! b = Some (JObj db) /\
    sample_spec w ForCalculate st
    = (Ok tt,
       State (base_url st1)
         (out st1 ++
          [EchoJson
             (JObj [ ("calculations",
                      JArr [ JObj (with_tokens 1000 500 da);
                             JObj (with_tokens 2000 1000 db) ]);
                     ("metadata", calculation_metadata) ])
             4])
         (log st1)
         (<[length (heap st1) + b := JObj (with_tokens 2000 1000 db)]>
            (<[length (heap st1) + a := JObj (with_tokens 1000 500 da)]>
               (heap st1 ++ models)))).
Proof.
  intros Hget Hn Hobj Hends.
  set (n := length models) in *. set (h := length (heap st1)).
  destruct (random_choice_positions _ _ n Hn Hends) as (a & b & Hpos & Hab & Ha & Hb).
  destruct (lookup_lt_is_Some_2 models a Ha) as [ma Hma].
  destruct (lookup_lt_is_Some_2 models b Hb) as [mb Hmb].
  rewrite Forall_forall in Hobj.
  destruct (Hobj ma (list_elem_of_lookup_2 _ _ _ Hma)) as [da ->].
  destruct (Hobj mb (list_elem_of_lookup_2 _ _ _ Hmb)) as [db ->].
  exists a, b, da, db. do 4 (split; [done|]).
  unfold sample_spec.
  erewrite bind_ok by exact Hget.
  erewrite bind_ok by reflexivity.
  erewrite bind_ok by reflexivity.
  erewrite bind_ok; cycle 1.
  { apply random_sample_ends; [by rewrite length_seq|].
    fold n h. rewrite <- (seq_offset h n), random_choice_map, Hpos.
    reflexivity. }
  cbn [map].
  erewrite bind_ok; cycle 1.
  { apply obj_update_run. simpl.
    rewrite lookup_app_r by (fold h; lia).
    fold h. replace (h + a - h) with a by lia. exact Hma. }
  erewrite bind_ok; cycle 1.
  { apply obj_update_run. simpl.
    rewrite list_lookup_insert_ne by (fold h; lia).
    rewrite lookup_app_r by (fold h; lia).
    fold h. replace (h + b - h) with b by lia. exact Hmb. }
  erewrite bind_ok; cycle 1.
  { unfold deref_all. simpl.
    rewrite list_lookup_insert_ne by lia.
    rewrite list_lookup_insert_eq
      by (rewrite length_app; fold h n; lia).
    rewrite list_lookup_insert_eq
      by (rewrite length_insert, length_app; fold h n; lia).
    reflexivity. }
  reflexivity.
Qed.

(** C6: on a model list of at least two records, [sample-spec calculate]
    samples two different positions of the list, and prints the record at
    the first with input_tokens 1000 and output_tokens 500 and the record at
    the second with input_tokens 2000 and output_tokens 1000, their other
    fields unchanged.  The selection is without replacement and uniform:
    whatever the generator draws, the sample is a pair of different
    positions; every ordered pair of different positions comes from exactly
    one pair of draws when the list has up to 21 records, and from exactly
    the draw sequences "first position, any number of repeats of it, second
    position" when it has more; and the generator can make every draw. *)
Theorem sample_spec_calculate_samples_two_and_injects_tokens
    w st st1 models :
  get_models w (env_api_key w) st = (Ok (JArr models), st1) ->
  2 <= length models ->
  Forall is_object models ->
  selection_ends (rand w) (patience w) (length models) ->
  (exists a b da db,
     random_choice (rand w) (patience w) (seq 0 (length models)) 2
     = Some [a; b] /\
     a <> b /\
     models !! a = Some (JObj da) /\
     models !! b = Some (JObj db) /\
     fst (sample_spec w ForCalculate st) = Ok tt /\
     out (snd (sample_spec w ForCalculate st))
     = out st1 ++
       [EchoJson
          (JObj [ ("calculations",
                   JArr [ JObj (with_tokens 1000 500 da);
                          JObj (with_tokens 2000 1000 db) ]);
                  ("metadata", calculation_metadata) ])
          4]) /\
  (forall input output d,
     dict_get "input_tokens" (with_tokens input output d) = Some (JInt input) /\
     dict_get "output_tokens" (with_tokens input output d) = Some (JInt output) /\
     forall k, k <> "input_tokens" -> k <> "output_tokens" ->
               dict_get k (with_tokens input output d) = dict_get k d) /\
  (forall rnd limit,
     selection_ends rnd limit (length models) ->
     exists a b,
       random_choice rnd limit (seq 0 (length models)) 2 = Some [a; b] /\
       a <> b /\ a < length models /\ b < length models) /\
  (forall a b, a < length models -> b < length models -> a <> b ->
     (length models <= 21 ->
      exists j0 j1,
        j0 < length models /\ j1 < length models - 1 /\
        forall rnd limit,
          random_choice rnd limit (seq 0 (length models)) 2 = Some [a; b]
          <-> randbelow rnd 0 (length models) = j0 /\
              randbelow rnd 1 (length models - 1) = j1) /\
     (21 < length models ->
      forall rnd limit,
        random_choice rnd limit (seq 0 (length models)) 2 = Some [a; b]
        <-> 0 < limit /\ randbelow rnd 0 (length models) = a /\
            exists r, r < limit /\
              (forall t, t < r -> randbelow rnd (1 + t) (length models) = a) /\
              randbelow rnd (1 + r) (length models) = b)) /\
  (forall d : nat -> nat,
     exists rnd, forall i m, d i < m -> randbelow rnd i m = d i).
Proof.
  intros Hget Hn Hobj Hends. split; [|split; [|split; [|split]]].
  - destruct (sample_spec_calculate_run w st st1 models Hget Hn Hobj Hends)
      as (a & b & da & db & Hs & Hab & Ha & Hb & Hrun).
    exists a, b, da, db. rewrite Hrun. done.
  - apply with_tokens_get.
  - intros rnd limit. by apply random_choice_positions.
  - intros a b Ha Hb Hab. split.
    + intros Hsmall.
      destruct (picks_bijective _ a b Ha Hb Hab)
        as (j0 & j1 & H0 & H1 & Hp & Huniq).
      exists j0, j1. split; [done|]. split; [done|].
      intros rnd limit. rewrite random_choice_small by done. split.
      * intros [= Hfst Hsnd]. apply Huniq.
        -- apply randbelow_lt. lia.
        -- apply randbelow_lt. lia.
        -- rewrite <- Hfst, <- Hsnd. unfold picks. done.
      * intros [-> ->]. by rewrite Hp.
    + intros Hlarge rnd limit. by apply random_choice_large.
  - apply randbelow_any.
Qed.

Lemma sample_spec_calculate_samples_two_and_injects_tokens_witness :
  (exists a b da db,
     random_choice (rand demo_world) (patience demo_world)
       (seq 0 (length demo_models)) 2 = Some [a; b] /\
     a <> b /\
     demo_models !! a = Some (JObj da) /\
     demo_models !! b = Some (JObj db) /\
     fst (sample_spec demo_world ForCalculate initial_state) = Ok tt /\
     out (snd (sample_spec demo_world ForCalculate initial_state))
     = out (after_request initial_state
              (Request GET "https://agentcomparer.com/api/models/list"
                       (Some "secret") None)) ++
       [EchoJson
          (JObj [ ("calculations",
                   JArr [ JObj (with_tokens 1000 500 da);
                          JObj (with_tokens 2000 1000 db) ]);
                  ("metadata", calculation_metadata) ])
          4]) /\
  (forall input output d,
     dict_get "input_tokens" (with_tokens input output d) = Some (JInt input) /\
     dict_get "output_tokens" (with_tokens input output d) = Some (JInt output) /\
     forall k, k <> "input_tokens" -> k <> "output_tokens" ->
               dict_get k (with_tokens input output d) = dict_get k d) /\
  (forall rnd limit,
     selection_ends rnd limit (length demo_models) ->
     exists a b,
       random_choice rnd limit (seq 0 (length demo_models)) 2 = Some [a; b] /\
       a <> b /\ a < length demo_models /\ b < length demo_models) /\
  (forall a b, a < length demo_models -> b < length demo_models -> a <> b ->
     (length demo_models <= 21 ->
      exists j0 j1,
        j0 < length demo_models /\ j1 < length demo_models - 1 /\
        forall rnd limit,
          random_choice rnd limit (seq 0 (length demo_models)) 2 = Some [a; b]
          <-> randbelow rnd 0 (length demo_models) = j0 /\
              randbelow rnd 1 (length demo_models - 1) = j1) /\
     (21 < length demo_models ->
      forall rnd limit,
        random_choice rnd limit (seq 0 (length demo_models)) 2 = Some [a; b]
        <-> 0 < limit /\ randbelow rnd 0 (length demo_models) = a /\
            exists r, r < limit /\
              (forall t, t < r -> randbelow rnd (1 + t) (length demo_models) = a) /\
              randbelow rnd (1 + r) (length demo_models) = b)) /\
  (forall d : nat -> nat,
     exists rnd, forall i m, d i < m -> randbelow rnd i m = d i).
Proof.
  apply (sample_spec_calculate_samples_two_and_injects_tokens
           demo_world initial_state).
  - reflexivity.
  - simpl. lia.
  - repeat constructor; by eexists.
  - left. rewrite setsize_two. simpl. lia.
Defined.

(** With draws 1 and 4 on three models: positions 1 and 0. *)
Example sample_spec_calculate_demo :
  printed (main demo_world (Invocation None (SampleSpec ForCalculate)))
  = [ EchoJson
        (JObj
           [ ("calculations",
              JArr
                [ JObj [ ("provider", JStr "Anthropic");
                         ("model_family", JStr "claude");
                         ("model_name", JStr "Claude 3");
                         ("tools", JBool true);
                         ("input_tokens", JInt 1000);
                         ("output_tokens", JInt 500) ];
                  JObj [ ("provider", JStr "OpenAI");
                         ("model_family", JStr "o-series");
                         ("model_name", JStr "GPT-4");
                         ("tools", JBool true);
                         ("input_tokens", JInt 2000);
                         ("output_tokens", JInt 1000) ] ]);
             ("metadata", calculation_metadata) ])
        4 ].
Proof. reflexivity. Qed.

(** Twenty-two models and the draws 3, 3, 7: the repeated 3 is drawn again,
    and the records at positions 3 and 7 are printed. *)
Example sample_spec_calculate_large :
  printed (main crowded_world (Invocation None (SampleSpec ForCalculate)))
  = [ EchoJson
        (JObj
           [ ("calculations",
              JArr
                [ JObj [ ("id", JInt 3); ("input_tokens", JInt 1000);
                         ("output_tokens", JInt 500) ];
                  JObj [ ("id", JInt 7); ("input_tokens", JInt 2000);
                         ("output_tokens", JInt 1000) ] ]);
             ("metadata", calculation_metadata) ])
        4 ].
Proof. reflexivity. Qed.

(** ** Requests of a run *)

Lemma base_url_started srv : base_url (started srv) = base_of srv.
Proof.
  unfold started, base_of. destruct srv as [s|]; simpl; [|done].
  by destruct (String.eqb s "").
Qed.

Lemma started_clean srv : out (started srv) = [] /\ log (started srv) = [].
Proof. unfold started. by destruct (truthy _). Qed.

Create HintDb net.

Lemma inert_ret {A} (a : A) : inert (ret a).
Proof. by intros st. Qed.

Lemma inert_raise {A} c msg : inert (@raise A c msg).
Proof. by intros st. Qed.

Lemma inert_bind {A B} (m : M A) (k : A -> M B) :
  inert m -> (forall a, inert (k a)) -> inert (bind m k).
Proof.
  intros Hm Hk st. unfold bind. specialize (Hm st).
  destruct (m st) as [[a | e] st1]; simpl in *; [|done].
  subst st1. apply Hk.
Qed.

Lemma inert_if {A} (b : bool) (m1 m2 : M A) :
  inert m1 -> inert m2 -> inert (if b then m1 else m2).
Proof. by destruct b. Qed.

Lemma inert_no_attribute {A} v attr : inert (@no_attribute A v attr).
Proof. apply inert_raise. Qed.

Lemma inert_py_iter v : inert (py_iter v).
Proof. destruct v; simpl; auto using inert_ret, @inert_raise. Qed.

Lemma inert_py_len v : inert (py_len v).
Proof. destruct v; simpl; auto using inert_ret, @inert_raise. Qed.

Lemma inert_py_items v : inert (py_items v).
Proof. destruct v; simpl; auto using inert_ret, @inert_no_attribute. Qed.

Lemma inert_get_or m k d : inert (get_or m k d).
Proof.
  destruct m; simpl; auto using @inert_no_attribute.
  destruct (dict_get k fields); apply inert_ret.
Qed.

Lemma inert_str_lower v : inert (str_lower v).
Proof. destruct v; simpl; auto using inert_ret, @inert_no_attribute. Qed.

#[export] Hint Resolve inert_ret inert_raise inert_bind inert_if
  inert_no_attribute inert_py_iter inert_py_len inert_py_items inert_get_or
  inert_str_lower : net.

Lemma inert_model_matches search m : inert (model_matches search m).
Proof.
  unfold model_matches, field_contains.
  repeat (apply inert_bind; [auto 10 with net | intros ?]);
    repeat (apply inert_if; [auto with net|]); auto 10 with net.
Qed.

Lemma inert_filter_models search models : inert (filter_models search models).
Proof.
  induction models as [|m models IH]; simpl; [auto with net|].
  apply inert_bind; [apply inert_model_matches | intros keep].
  apply inert_bind; [done | intros kept]. auto with net.
Qed.

Lemma inert_model_rows models : inert (model_rows models).
Proof.
  induction models as [|m models IH]; simpl; [auto with net|].
  apply inert_bind; [unfold model_row; auto 10 with net | intros row].
  apply inert_bind; [done | intros rows]. auto with net.
Qed.

Lemma inert_subscript_provider m : inert (subscript_provider m).
Proof.
  destruct m; simpl; auto with net.
  destruct (dict_get _ _); auto with net.
Qed.

Lemma inert_count_providers models counts :
  inert (count_providers models counts).
Proof.
  revert counts. induction models as [|m models IH]; intros counts; simpl.
  - auto with net.
  - apply inert_bind; [apply inert_subscript_provider | intros p].
    destruct (hash_key p); auto with net.
Qed.

Lemma inert_json_load w spec : inert (json_load w spec).
Proof.
  unfold json_load, open_read.
  apply inert_bind; [destruct (fs w spec); auto with net | intros c].
  destruct (json_loads w c); auto with net.
Qed.

Lemma inert_path_exists w spec : inert (path_exists w spec).
Proof. unfold path_exists. destruct (fs w spec); auto with net. Qed.

Lemma inert_as_sequence v : inert (as_sequence v).
Proof. destruct v; simpl; auto with net. Qed.

Lemma inert_random_sample {A} rnd limit (population : list A) k :
  inert (random_sample rnd limit population k).
Proof.
  unfold random_sample, never_ends. destruct (_ <? _); [auto with net|].
  destruct (random_choice _ _ _ _); auto with net.
Qed.

Lemma inert_deref_all refs : inert (deref_all refs).
Proof. by intros st. Qed.

#[export] Hint Resolve inert_model_matches inert_filter_models
  inert_model_rows inert_subscript_provider inert_count_providers
  inert_json_load inert_path_exists inert_as_sequence inert_random_sample
  inert_deref_all : net.

Lemma offline_inert {A} (m : M A) : inert m -> offline m.
Proof. intros H st. by rewrite H. Qed.

Lemma offline_echo item : offline (echo item).
Proof. by intros st. Qed.

Lemma offline_bind {A B} (m : M A) (k : A -> M B) :
  offline m -> (forall a, offline (k a)) -> offline (bind m k).
Proof.
  intros Hm Hk st. unfold bind. specialize (Hm st).
  destruct (m st) as [[a | e] st1]; simpl in *; [|done].
  destruct (Hk a st1) as [Hl Hb]. by rewrite Hl, Hb.
Qed.

Lemma offline_if {A} (b : bool) (m1 m2 : M A) :
  offline m1 -> offline m2 -> offline (if b then m1 else m2).
Proof. by destruct b. Qed.

Lemma offline_alloc_all items : offline (alloc_all items).
Proof. by intros st. Qed.

Lemma offline_obj_update r other : offline (obj_update r other).
Proof.
  intros st. unfold obj_update.
  destruct (heap st !! r) as [[]|]; done.
Qed.

#[export] Hint Resolve offline_inert offline_echo offline_bind offline_if
  offline_alloc_all offline_obj_update : net.

Lemma offline_on_request_exception {A} e (h : M A) :
  on_request_exception e = Some h -> offline h.
Proof.
  unfold on_request_exception. destruct (is_request_exception e); [|done].
  intros [= <-]. auto with net.
Qed.

Lemma offline_on_file_or_request_exception {A} e (h : M A) :
  on_file_or_request_exception e = Some h -> offline h.
Proof.
  unfold on_file_or_request_exception. destruct (is_file_error e).
  - intros [= <-]. auto with net.
  - apply offline_on_request_exception.
Qed.

Lemma at_most_one_offline {A} P (m : M A) : offline m -> at_most_one P m.
Proof. intros H st. destruct (H st). auto. Qed.

Lemma at_most_one_call w key meth path payload (P : string -> request -> Prop) :
  (forall base, P base (Request meth (base ++ path) key payload)) ->
  at_most_one P (call w key meth path payload).
Proof.
  intros HP st. rewrite call_state. simpl. split; [done|]. right. eauto.
Qed.

Lemma at_most_one_bind_l {A B} P (m : M A) (k : A -> M B) :
  offline m -> (forall a, at_most_one P (k a)) -> at_most_one P (bind m k).
Proof.
  intros Hm Hk st. unfold bind. destruct (Hm st) as [Hl Hb].
  destruct (m st) as [[a | e] st1]; simpl in *; [|auto].
  destruct (Hk a st1) as [Hb' H']. rewrite Hb', Hb. rewrite Hb, Hl in H'. done.
Qed.

Lemma at_most_one_bind_r {A B} P (m : M A) (k : A -> M B) :
  at_most_one P m -> (forall a, offline (k a)) -> at_most_one P (bind m k).
Proof.
  intros Hm Hk st. unfold bind. specialize (Hm st).
  destruct (m st) as [[a | e] st1]; simpl in *; [|done].
  destruct (Hk a st1) as [Hl Hb]. by rewrite Hl, Hb.
Qed.

Lemma at_most_one_try {A} P (body : M A) handler :
  at_most_one P body ->
  (forall e h, handler e = Some h -> offline h) ->
  at_most_one P (try_except body handler).
Proof.
  intros Hm Hh st. unfold try_except. specialize (Hm st).
  destruct (body st) as [[a | e] st1]; simpl in *; [done|].
  destruct (handler e) as [h|] eqn:E; [|done].
  destruct (Hh e h E st1) as [Hl Hb]. by rewrite Hl, Hb.
Qed.

(** Every command makes at most one call of the session, and that one is addressed
    to the command's endpoint with the credential attached. *)
Lemma invoke_at_most_one w c : at_most_one (request_of w c) (invoke w c).
Proof.
  destruct c; simpl invoke.
  - apply at_most_one_try; [|apply @offline_on_request_exception].
    apply at_most_one_bind_r.
    + by apply at_most_one_call.
    + intros models. apply offline_bind.
      * apply offline_if; auto 10 with net.
      * intros models'. apply offline_if; auto 10 with net.
  - apply at_most_one_try; [|apply @offline_on_request_exception].
    apply at_most_one_bind_r.
    + unfold get_providers. apply at_most_one_bind_r.
      * by apply at_most_one_call.
      * auto 10 with net.
    + intros [|]; auto 10 with net.
  - apply at_most_one_try; [|apply @offline_on_request_exception].
    apply at_most_one_bind_r; [by apply at_most_one_call | auto 10 with net].
  - apply at_most_one_try; [|apply @offline_on_request_exception].
    apply at_most_one_bind_r; [by apply at_most_one_call | auto 10 with net].
  - apply at_most_one_bind_l; [auto with net | intros _].
    apply at_most_one_try; [|apply @offline_on_file_or_request_exception].
    apply at_most_one_bind_l; [auto with net | intros data].
    apply at_most_one_bind_r; [by apply at_most_one_call | auto with net].
  - apply at_most_one_bind_l; [auto with net | intros _].
    apply at_most_one_try; [|apply @offline_on_file_or_request_exception].
    apply at_most_one_bind_l; [auto with net | intros data].
    apply at_most_one_bind_r; [by apply at_most_one_call | auto with net].
  - apply at_most_one_bind_r; [by apply at_most_one_call | intros models].
    apply offline_bind; [auto with net | intros items].
    apply offline_bind; [auto with net | intros refs].
    apply offline_bind; [auto with net | intros two].
    destruct kind; [auto 10 with net|].
    destruct two as [|? [|? ?]]; auto 10 with net.
Qed.

Lemma main_without_key w inv :
  env_api_key w = None \/ env_api_key w = Some "" ->
  main w inv
  = Outcome (ErrorMessage "COMPARER_API_KEY environment variable not set") [] [].
Proof. intros H. unfold main, cli, bind. by destruct H as [-> | ->]. Qed.

(** X1: whatever the world, one run makes at most one call of the [requests]
    session ([session.get] or [session.post]).  The call, when made, is the
    one of the command's endpoint: its method, the base URL in force
    followed by the path of the endpoint as the URL argument, and the
    configured credential as the header of the session.  What the library
    then puts on the wire (a redirect followed, a URL normalised) is read
    off the response, not fixed by the program. *)
Theorem run_attempts_at_most_one_request w srv c :
  sent (main w (Invocation srv c)) = [] \/
  exists req,
    sent (main w (Invocation srv c)) = [req] /\
    req_method req = fst (endpoint c) /\
    req_url req = (base_of srv ++ snd (endpoint c))%string /\
    req_api_key req = env_api_key w /\
    key_configured w.
Proof.
  destruct (env_api_key w) as [k|] eqn:Ek; cycle 1.
  { left. by rewrite (main_without_key w _ (or_introl Ek)). }
  destruct (String.eqb_spec k "") as [-> | Hk].
  { left. by rewrite (main_without_key w _ (or_intror Ek)). }
  assert (key_configured w) as Hkey by (by exists k).
  rewrite main_configured by done.
  destruct (invoke_at_most_one w c (started srv)) as [_ Hlog].
  destruct (invoke w c (started srv)) as [r st']. simpl in *.
  rewrite (proj2 (started_clean srv)), base_url_started in Hlog.
  destruct Hlog as [-> | (req & (Hm & Hu & Ha) & ->)]; [by left|].
  right. exists req. by rewrite Ek in *.
Qed.

(** ** Output of a run *)

Lemma silent_inert {A} (m : M A) : inert m -> silent m.
Proof. intros H st. by rewrite H. Qed.

Lemma silent_call w key meth path payload :
  silent (call w key meth path payload).
Proof. intros st. by rewrite call_state. Qed.

Lemma silent_alloc_all items : silent (alloc_all items).
Proof. by intros st. Qed.

Lemma silent_obj_update r other : silent (obj_update r other).
Proof.
  intros st. unfold obj_update.
  destruct (heap st !! r) as [[]|]; done.
Qed.

Lemma silent_bind {A B} (m : M A) (k : A -> M B) :
  silent m -> (forall a, silent (k a)) -> silent (bind m k).
Proof.
  intros Hm Hk st. unfold bind. specialize (Hm st).
  destruct (m st) as [[a | e] st1]; simpl in *; [|done].
  by rewrite Hk.
Qed.

Lemma unfailing_ret {A} (a : A) : unfailing (ret a).
Proof. intros st. by exists a. Qed.

Lemma unfailing_echo item : unfailing (echo item).
Proof. intros st. by exists tt. Qed.

Lemma unfailing_bind {A B} (m : M A) (k : A -> M B) :
  unfailing m -> (forall a, unfailing (k a)) -> unfailing (bind m k).
Proof.
  intros Hm Hk st. unfold bind. destruct (Hm st) as [a Ha].
  destruct (m st) as [[a' | e] st1]; simpl in *; [|done]. apply Hk.
Qed.

Lemma unfailing_if {A} (b : bool) (m1 m2 : M A) :
  unfailing m1 -> unfailing m2 -> unfailing (if b then m1 else m2).
Proof. by destruct b. Qed.

#[export] Hint Resolve silent_inert silent_call silent_alloc_all
  silent_obj_update silent_bind unfailing_ret unfailing_echo unfailing_bind
  unfailing_if : net.

Lemma all_or_nothing_silent {A} (m : M A) : silent m -> all_or_nothing m.
Proof. intros H st e _. apply H. Qed.

Lemma all_or_nothing_unfailing {A} (m : M A) : unfailing m -> all_or_nothing m.
Proof. intros H st e He. destruct (H st) as [a Ha]. congruence. Qed.

Lemma all_or_nothing_if {A} (b : bool) (m1 m2 : M A) :
  all_or_nothing m1 -> all_or_nothing m2 ->
  all_or_nothing (if b then m1 else m2).
Proof. by destruct b. Qed.

(** After a silent step, the rest decides. *)
Lemma all_or_nothing_after {A B} (m : M A) (k : A -> M B) :
  silent m -> (forall a, all_or_nothing (k a)) -> all_or_nothing (bind m k).
Proof.
  intros Hm Hk st e. unfold bind. specialize (Hm st).
  destruct (m st) as [[a | e'] st1]; simpl in *; [|done].
  intros He. rewrite <- Hm. by apply (Hk a st1 e).
Qed.

(** A step that may print must be followed by steps that cannot fail. *)
Lemma all_or_nothing_then {A B} (m : M A) (k : A -> M B) :
  all_or_nothing m -> (forall a, unfailing (k a)) -> all_or_nothing (bind m k).
Proof.
  intros Hm Hk st e. unfold bind. specialize (Hm st).
  destruct (m st) as [[a | e'] st1]; simpl in *.
  - intros He. destruct (Hk a st1) as [b Hb]. congruence.
  - intros _. by apply (Hm e').
Qed.

Lemma all_or_nothing_try {A} (body : M A) handler :
  all_or_nothing body ->
  (forall e h, handler e = Some h -> silent h) ->
  all_or_nothing (try_except body handler).
Proof.
  intros Hm Hh st e. unfold try_except. specialize (Hm st).
  destruct (body st) as [[a | e'] st1]; simpl in *; [done|].
  destruct (handler e') as [h|] eqn:E.
  - intros _. rewrite (Hh e' h E st1). by apply (Hm e').
  - intros _. by apply (Hm e').
Qed.

Lemma silent_on_request_exception {A} e (h : M A) :
  on_request_exception e = Some h -> silent h.
Proof.
  unfold on_request_exception. destruct (is_request_exception e); [|done].
  intros [= <-]. auto with net.
Qed.

Lemma silent_on_file_or_request_exception {A} e (h : M A) :
  on_file_or_request_exception e = Some h -> silent h.
Proof.
  unfold on_file_or_request_exception. destruct (is_file_error e).
  - intros [= <-]. auto with net.
  - apply silent_on_request_exception.
Qed.

(** The table of [list-models] and its count line: once the rows are built,
    nothing can fail any more. *)
Lemma all_or_nothing_models_table models' :
  all_or_nothing
    (items <~ py_iter models' ;;
     table_data <~ model_rows items ;;
     echo (EchoTable ["Provider"; "Model Family"; "Model Name"] table_data) ;;;
     n <~ py_len models' ;;
     echo (Echo (String "010" "Total models: " ++ str_of_nat n))).
Proof.
  destruct models'; simpl py_iter; simpl py_len;
    try (by intros st e _);
    (apply all_or_nothing_after; [auto with net | intros its];
     apply all_or_nothing_after; [auto with net | intros rws];
     apply all_or_nothing_unfailing; auto 10 with net).
Qed.

(** A command that raises has printed nothing. *)
Lemma invoke_all_or_nothing w c : all_or_nothing (invoke w c).
Proof.
  destruct c; simpl invoke.
  - apply all_or_nothing_try; [|apply @silent_on_request_exception].
    apply all_or_nothing_after; [apply silent_call | intros models].
    apply all_or_nothing_after.
    { destruct (truthy (JStr search0)); auto 10 with net. }
    intros models'. apply all_or_nothing_if.
    + apply all_or_nothing_unfailing. auto with net.
    + apply all_or_nothing_models_table.
  - apply all_or_nothing_try; [|apply @silent_on_request_exception].
    apply all_or_nothing_after.
    { unfold get_providers, get_models. auto 10 with net. }
    intros [|]; apply all_or_nothing_unfailing; auto 10 with net.
  - apply all_or_nothing_try; [|apply @silent_on_request_exception].
    apply all_or_nothing_after; [apply silent_call | intros v].
    apply all_or_nothing_after; [auto with net | intros items].
    apply all_or_nothing_unfailing. auto with net.
  - apply all_or_nothing_try; [|apply @silent_on_request_exception].
    apply all_or_nothing_after; [apply silent_call | intros v].
    apply all_or_nothing_unfailing. auto 10 with net.
  - apply all_or_nothing_after; [auto with net | intros _].
    apply all_or_nothing_try; [|apply @silent_on_file_or_request_exception].
    apply all_or_nothing_after; [auto with net | intros data].
    apply all_or_nothing_after; [apply silent_call | intros v].
    apply all_or_nothing_unfailing. auto with net.
  - apply all_or_nothing_after; [auto with net | intros _].
    apply all_or_nothing_try; [|apply @silent_on_file_or_request_exception].
    apply all_or_nothing_after; [auto with net | intros data].
    apply all_or_nothing_after; [apply silent_call | intros v].
    apply all_or_nothing_unfailing. auto with net.
  - apply all_or_nothing_after; [apply silent_call | intros models].
    apply all_or_nothing_after; [auto with net | intros items].
    apply all_or_nothing_after; [auto with net | intros refs].
    apply all_or_nothing_after; [auto with net | intros two].
    destruct kind.
    + apply all_or_nothing_after; [auto with net | intros objs].
      apply all_or_nothing_unfailing. auto with net.
    + destruct two as [|a [|b rest]]; try (by intros st e _).
      apply all_or_nothing_after; [auto with net | intros _].
      apply all_or_nothing_after; [auto with net | intros _].
      apply all_or_nothing_after; [auto with net | intros objs].
      apply all_or_nothing_unfailing. auto with net.
Qed.

(** X2: whatever the world, a run that does not finish normally has printed
    nothing on standard output: no command prints a part of its result and
    then fails. *)
Theorem failed_run_prints_nothing w inv :
  ended (main w inv) <> Finished -> printed (main w inv) = [].
Proof.
  destruct inv as [srv c]. intros Hend.
  destruct (env_api_key w) as [k|] eqn:Ek; cycle 1.
  { by rewrite (main_without_key w _ (or_introl Ek)). }
  destruct (String.eqb_spec k "") as [-> | Hk].
  { by rewrite (main_without_key w _ (or_intror Ek)). }
  assert (key_configured w) as Hkey by (by exists k).
  rewrite main_configured in * by done.
  pose proof (invoke_all_or_nothing w c (started srv)) as Haon.
  destruct (invoke w c (started srv)) as [[[] | e] st']; simpl in *; [done|].
  rewrite (Haon e eq_refl). apply started_clean.
Qed.

Lemma failed_run_prints_nothing_witness :
  printed (main offline_world (Invocation None (Search no_flags))) = [].
Proof.
  apply (failed_run_prints_nothing offline_world).
  discriminate.
Defined.

(** ** Answers of the service *)

Lemma call_answers w key meth path payload st v :
  answers w v ->
  call w key meth path payload st
  = (Ok v, after_request st (Request meth (base_url st ++ path) key payload)).
Proof.
  intros H. destruct (H (Request meth (base_url st ++ path) key payload))
    as (r & Hr & Hs & Hv).
  by eapply call_success.
Qed.

Lemma call_rejects w key meth path payload st r :
  rejects w r ->
  call w key meth path payload st
  = (Raise (Exn HTTPError (http_error_msg r)),
     after_request st (Request meth (base_url st ++ path) key payload)).
Proof.
  intros [Hr Hs].
  rewrite (surjective_pairing (call w key meth path payload st)).
  by rewrite call_state, (call_error_status _ _ _ _ _ _ r).
Qed.

(** The body of a guarded command raises at its client call, which the
    service rejects. *)
Ltac rejected_in_body :=
  first
    [ by apply call_rejects
    | erewrite bind_ok by (by eapply json_load_parsed); rejected_in_body
    | erewrite bind_raise; [reflexivity | rejected_in_body] ].

Lemma guarded_reports_error_status w c r st :
  rejects w r -> guarded w c ->
  exists st',
    invoke w c st
    = (Raise (Exn ClickException
                ("API request failed: " ++ http_error_msg r)), st') /\
    out st' = out st.
Proof.
  intros Hw Hc.
  destruct Hc; simpl invoke;
    unfold list_models, list_providers, stats, search, compare, calculate,
      get_providers, get_models, get_stats, search_models, compare_models,
      calculate_price;
    try (erewrite bind_ok by (by eapply path_exists_regular));
    (erewrite try_except_raise by rejected_in_body);
    eexists; (split; [reflexivity | done]).
Qed.

(** X3: when the call returns a response with a 4xx or 5xx status, each of
    the six guarded commands ends with the one-line error that names the
    status, the reason phrase and the URL of the response; nothing is
    printed and the exit status is 1. *)
Theorem guarded_run_reports_error_status w srv c r :
  key_configured w -> rejects w r -> guarded w c ->
  ended (main w (Invocation srv c))
  = ErrorMessage
      ("API request failed: " ++ str_of_nat (status_code r)
       ++ (if status_code r <? 500 then " Client Error: " else " Server Error: ")
       ++ reason r ++ " for url: " ++ url r) /\
  printed (main w (Invocation srv c)) = [] /\
  exit_status (ended (main w (Invocation srv c))) = 1.
Proof.
  intros Hk Hw Hc. rewrite main_configured by done.
  destruct (guarded_reports_error_status w c r (started srv) Hw Hc)
    as (st' & -> & Ho).
  simpl. rewrite Ho, (proj1 (started_clean srv)). done.
Qed.

Lemma guarded_run_reports_error_status_witness :
  ended (main rejecting_world (Invocation None Stats))
  = ErrorMessage
      ("API request failed: " ++ str_of_nat (status_code not_found)
       ++ (if status_code not_found <? 500
           then " Client Error: " else " Server Error: ")
       ++ reason not_found ++ " for url: " ++ url not_found) /\
  printed (main rejecting_world (Invocation None Stats)) = [] /\
  exit_status (ended (main rejecting_world (Invocation None Stats))) = 1.
Proof.
  apply (guarded_run_reports_error_status rejecting_world None Stats not_found).
  - exists "secret". split; [reflexivity | discriminate].
  - split; [intros req; reflexivity | simpl; lia].
  - constructor.
Defined.

(** The message of a 404, as the user reads it. *)
Example stats_not_found :
  ended (main rejecting_world (Invocation None Stats))
  = ErrorMessage
      "API request failed: 404 Client Error: Not Found for url: https://agentcomparer.com/api/models/stats".
Proof. reflexivity. Qed.

(** X4: when the stats endpoint answers with an object, [stats] prints one
    table and nothing else: one row per entry of the object, in the order of
    the answer, key and value as received.  An empty object still gives a
    table, with no rows. *)
Theorem stats_prints_one_row_per_entry w srv d :
  key_configured w -> answers w (JObj d) ->
  main w (Invocation srv Stats)
  = Outcome Finished
      [EchoTable ["Provider"; "Model Count"]
         (map (fun kv => [JStr (fst kv); snd kv]) d)]
      [request_to w Stats (base_of srv) None].
Proof.
  intros Hk Hw. rewrite main_configured, started_eq by done.
  simpl invoke. unfold stats, get_stats.
  erewrite try_except_ok; cycle 1.
  { erewrite bind_ok by (by apply call_answers).
    erewrite bind_ok by reflexivity. reflexivity. }
  reflexivity.
Qed.

Lemma stats_prints_one_row_per_entry_witness :
  main stats_world (Invocation None Stats)
  = Outcome Finished
      [EchoTable ["Provider"; "Model Count"]
         (map (fun kv => [JStr (fst kv); snd kv]) stats_body)]
      [request_to stats_world Stats (base_of None) None].
Proof.
  apply (stats_prints_one_row_per_entry stats_world None stats_body).
  - exists "secret". split; [reflexivity | discriminate].
  - intros req. eexists. split; [reflexivity|]. split; [simpl; lia | reflexivity].
Defined.

(** X5: when the stats endpoint answers with JSON that is not an object,
    [stats] fails on [stats.items()]: the [AttributeError] is not a
    [requests] exception, so it leaves the command uncaught, after the
    request and before any output. *)
Theorem stats_needs_an_object w srv v :
  key_configured w -> answers w v -> ~ is_object v ->
  main w (Invocation srv Stats)
  = Outcome
      (Uncaught (Exn AttributeError
                   ("'" ++ type_name v ++ "' object has no attribute 'items'")))
      []
      [request_to w Stats (base_of srv) None].
Proof.
  intros Hk Hw Hv. rewrite main_configured, started_eq by done.
  simpl invoke. unfold stats, get_stats.
  erewrite try_except_raise; cycle 1.
  { erewrite bind_ok by (by apply call_answers).
    erewrite bind_raise; [reflexivity|].
    destruct v; try reflexivity. destruct Hv. by eexists. }
  reflexivity.
Qed.

Lemma stats_needs_an_object_witness :
  main demo_world (Invocation None Stats)
  = Outcome
      (Uncaught (Exn AttributeError
                   ("'" ++ type_name (JArr demo_models)
                    ++ "' object has no attribute 'items'")))
      []
      [request_to demo_world Stats (base_of None) None].
Proof.
  apply (stats_needs_an_object demo_world None (JArr demo_models)).
  - exists "secret". split; [reflexivity | discriminate].
  - intros req. eexists. split; [reflexivity|]. split; [simpl; lia | reflexivity].
  - intros [d Hd]. discriminate.
Defined.

(** X6: when the search endpoint answers, [search] prints the heading line
    and then the answer itself, whatever its shape, with indentation 2; the
    one request it made carries the payload built from the flags. *)
Theorem search_prints_the_answer w srv c v :
  key_configured w -> answers w v ->
  main w (Invocation srv (Search c))
  = Outcome Finished
      [Echo "Search Results:"; EchoJson v 2]
      [request_to w (Search c) (base_of srv) (Some (JObj (search_payload c)))].
Proof.
  intros Hk Hw. rewrite main_configured, started_eq by done.
  simpl invoke. unfold search, search_models.
  erewrite try_except_ok; cycle 1.
  { erewrite bind_ok by (by apply call_answers).
    erewrite bind_ok by apply echo_run.
    rewrite echo_run, after_output_app. reflexivity. }
  reflexivity.
Qed.

Lemma search_prints_the_answer_witness :
  main demo_world (Invocation None (Search no_flags))
  = Outcome Finished
      [Echo "Search Results:"; EchoJson (JArr demo_models) 2]
      [request_to demo_world (Search no_flags) (base_of None)
         (Some (JObj (search_payload no_flags)))].
Proof.
  apply (search_prints_the_answer demo_world None no_flags (JArr demo_models)).
  - exists "secret". split; [reflexivity | discriminate].
  - intros req. eexists. split; [reflexivity|]. split; [simpl; lia | reflexivity].
Defined.

(** X7: [compare] and [calculate] hand the decoded contents of the spec
    file unchanged to the call, as its JSON body, each to its own endpoint,
    and print the answer with indentation 2 and nothing else.  A file that
    holds [null] decodes to Python's [None], for which the call has no body. *)
Theorem compare_and_calculate_post_the_file w srv spec contents data v :
  key_configured w ->
  fs w spec = Regular contents ->
  json_loads w contents = Parsed data ->
  answers w v ->
  main w (Invocation srv (Compare spec))
  = Outcome Finished [EchoJson v 2]
      [Request POST (base_of srv ++ "/api/agents/compare") (env_api_key w)
               match data with JNull => None | _ => Some data end] /\
  main w (Invocation srv (Calculate spec))
  = Outcome Finished [EchoJson v 2]
      [Request POST (base_of srv ++ "/api/agents/calculate") (env_api_key w)
               match data with JNull => None | _ => Some data end].
Proof.
  intros Hk Hf Hj Hw. rewrite !main_configured, started_eq by done.
  simpl invoke. unfold compare, calculate, compare_models, calculate_price.
  erewrite !bind_ok by (by eapply path_exists_regular).
  split.
  - erewrite try_except_ok; cycle 1.
    { erewrite bind_ok by (by eapply json_load_parsed).
      erewrite bind_ok by (by apply call_answers). reflexivity. }
    reflexivity.
  - erewrite try_except_ok; cycle 1.
    { erewrite bind_ok by (by eapply json_load_parsed).
      erewrite bind_ok by (by apply call_answers). reflexivity. }
    reflexivity.
Qed.

Lemma compare_and_calculate_post_the_file_witness :
  main demo_world (Invocation (Some "http://localhost:8000") (Compare "empty.json"))
  = Outcome Finished [EchoJson (JArr demo_models) 2]
      [Request POST (base_of (Some "http://localhost:8000") ++ "/api/agents/compare")
               (env_api_key demo_world)
               match JObj [] with JNull => None | _ => Some (JObj []) end] /\
  main demo_world (Invocation (Some "http://localhost:8000") (Calculate "empty.json"))
  = Outcome Finished [EchoJson (JArr demo_models) 2]
      [Request POST (base_of (Some "http://localhost:8000") ++ "/api/agents/calculate")
               (env_api_key demo_world)
               match JObj [] with JNull => None | _ => Some (JObj []) end].
Proof.
  apply (compare_and_calculate_post_the_file demo_world
           (Some "http://localhost:8000") "empty.json" "{}").
  - exists "secret". split; [reflexivity | discriminate].
  - reflexivity.
  - reflexivity.
  - intros req. eexists. split; [reflexivity|]. split; [simpl; lia | reflexivity].
Defined.

(** A spec file that holds [null] is posted without a body. *)
Example compare_null_file :
  sent (main demo_world (Invocation None (Compare "null.json")))
  = [Request POST "https://agentcomparer.com/api/agents/compare"
             (Some "secret") None].
Proof. reflexivity. Qed.

(** ** Spec files that cannot be read *)

(** X8: a spec path that does not exist is refused while the arguments of
    [compare] or [calculate] are checked: the run ends with a usage error and
    exit status 2, before the file is opened and before any request. *)
Theorem missing_spec_file_is_a_usage_error w srv spec :
  key_configured w -> fs w spec = Missing ->
  exists msg,
    main w (Invocation srv (Compare spec)) = Outcome (UsageError msg) [] [] /\
    main w (Invocation srv (Calculate spec)) = Outcome (UsageError msg) [] [] /\
    exit_status (UsageError msg) = 2.
Proof.
  intros Hk Hf. eexists. rewrite !main_configured, started_eq by done.
  simpl invoke.
  erewrite !bind_raise by (unfold path_exists; rewrite Hf; reflexivity).
  simpl. done.
Qed.

Lemma missing_spec_file_is_a_usage_error_witness :
  exists msg,
    main demo_world (Invocation None (Compare "nowhere.json"))
    = Outcome (UsageError msg) [] [] /\
    main demo_world (Invocation None (Calculate "nowhere.json"))
    = Outcome (UsageError msg) [] [] /\
    exit_status (UsageError msg) = 2.
Proof.
  apply (missing_spec_file_is_a_usage_error demo_world None "nowhere.json").
  - exists "secret". split; [reflexivity | discriminate].
  - reflexivity.
Defined.

(** X9: a spec path that names a directory passes the existence check; the
    error raised when it is opened is neither a JSON error, nor
    [FileNotFoundError], nor a [requests] exception, so it leaves [compare]
    and [calculate] uncaught.  No request is attempted. *)
Theorem directory_as_spec_file_is_uncaught w srv spec :
  key_configured w -> fs w spec = Directory ->
  exists msg,
    main w (Invocation srv (Compare spec))
    = Outcome (Uncaught (Exn IsADirectoryError msg)) [] [] /\
    main w (Invocation srv (Calculate spec))
    = Outcome (Uncaught (Exn IsADirectoryError msg)) [] [].
Proof.
  intros Hk Hf. eexists. rewrite !main_configured, started_eq by done.
  simpl invoke. unfold compare, calculate.
  erewrite !bind_ok by (unfold path_exists; rewrite Hf; reflexivity).
  erewrite !try_except_raise
    by (erewrite bind_raise;
        [reflexivity
        | unfold json_load; erewrite bind_raise;
          [reflexivity | unfold open_read; rewrite Hf; reflexivity]]).
  simpl. done.
Qed.

Lemma directory_as_spec_file_is_uncaught_witness :
  exists msg,
    main ragged_world (Invocation None (Compare "specs"))
    = Outcome (Uncaught (Exn IsADirectoryError msg)) [] [] /\
    main ragged_world (Invocation None (Calculate "specs"))
    = Outcome (Uncaught (Exn IsADirectoryError msg)) [] [].
Proof.
  apply (directory_as_spec_file_is_uncaught ragged_world None "specs").
  - exists "secret". split; [reflexivity | discriminate].
  - reflexivity.
Defined.

(** ** Model lists that the commands cannot handle *)

Lemma count_providers_missing pre d post cs st :
  Forall has_text_provider pre ->
  dict_get "provider" d = None ->
  count_providers (pre ++ JObj d :: post) (as_counts cs) st
  = (Raise (Exn KeyError "'provider'"), st).
Proof.
  intros H Hd. revert cs.
  induction H as [|m pre [p Hp] _ IH]; intros cs; simpl.
  - erewrite bind_raise; [reflexivity|]. by rewrite Hd.
  - unfold provider_text, field in Hp.
    destruct m as [| | | | |dm]; try done.
    destruct (dict_get "provider" dm) as [[| | |s| |]|] eqn:E; try done.
    erewrite bind_ok by (unfold subscript_provider; rewrite E; reflexivity).
    simpl. rewrite counts_incr_text. apply IH.
Qed.

(** X10: [list-providers] reads the provider of every record by subscript.
    A record without that key raises [KeyError], which is not a [requests]
    exception: the run ends uncaught, after the call, with nothing printed,
    however many records before it were well formed.  [list-models] reads
    with a default instead: when the records of the same list are objects
    whose names are text, it lists them all. *)
Theorem list_providers_needs_provider_keys w srv pre d post :
  key_configured w ->
  answers w (JArr (pre ++ JObj d :: post)) ->
  Forall has_text_provider pre ->
  dict_get "provider" d = None ->
  main w (Invocation srv ListProviders)
  = Outcome (Uncaught (Exn KeyError "'provider'")) []
      [request_to w ListProviders (base_of srv) None] /\
  (Forall model_record (pre ++ JObj d :: post) ->
   main w (Invocation srv (ListModels ""))
   = Outcome Finished
       [ EchoTable ["Provider"; "Model Family"; "Model Name"]
           (map table_row (pre ++ JObj d :: post));
         Echo (String "010" "Total models: "
               ++ str_of_nat (length (pre ++ JObj d :: post))) ]
       [request_to w (ListModels "") (base_of srv) None]).
Proof.
  intros Hk Hw Hpre Hd. rewrite !main_configured, started_eq by done.
  simpl invoke. split.
  - unfold list_providers, get_providers, get_models.
    erewrite try_except_raise; cycle 1.
    { erewrite bind_raise; [reflexivity|].
      erewrite bind_ok by (by apply call_answers).
      erewrite bind_ok by reflexivity.
      by apply (count_providers_missing pre d post []). }
    reflexivity.
  - intros Hrec.
    erewrite list_models_run;
      [| unfold get_models; by apply call_answers | exact Hrec].
    unfold shown, models_output. simpl.
    by destruct pre.
Qed.

Lemma list_providers_needs_provider_keys_witness :
  main ragged_world (Invocation None ListProviders)
  = Outcome (Uncaught (Exn KeyError "'provider'")) []
      [request_to ragged_world ListProviders (base_of None) None] /\
  main ragged_world (Invocation None (ListModels ""))
  = Outcome Finished
      [ EchoTable ["Provider"; "Model Family"; "Model Name"]
          (map table_row ragged_models);
        Echo (String "010" "Total models: "
              ++ str_of_nat (length ragged_models)) ]
      [request_to ragged_world (ListModels "") (base_of None) None].
Proof.
  destruct (list_providers_needs_provider_keys ragged_world None
              [JObj [("provider", JStr "OpenAI"); ("model_name", JStr "GPT-4")]]
              [("model_name", JStr "mystery")] []) as [Hp Hm].
  - exists "secret". split; [reflexivity | discriminate].
  - intros req. eexists. split; [reflexivity|]. split; [simpl; lia | reflexivity].
  - repeat constructor. by eexists.
  - reflexivity.
  - split; [exact Hp|]. apply Hm.
    repeat constructor; try (eexists; reflexivity);
      intros k v [<- | [<- | [<- | []]]]; simpl; intros [= <-]; eauto.
Defined.

(** The same list is fine for [list-models], which reads with a default. *)
Example list_models_ragged :
  main ragged_world (Invocation None (ListModels ""))
  = Outcome Finished
      [ EchoTable ["Provider"; "Model Family"; "Model Name"]
          [ [JStr "OpenAI"; JStr "N/A"; JStr "GPT-4"];
            [JStr "N/A"; JStr "N/A"; JStr "mystery"] ];
        Echo (String "010" "Total models: 2") ]
      [request_to ragged_world (ListModels "") (base_of None) None].
Proof. reflexivity. Qed.

(** X11: with fewer than two models [sample-spec] cannot sample: the
    [ValueError] of [random.sample] leaves the command uncaught, after the
    request, with nothing printed, for [compare] and [calculate] alike. *)
Theorem sample_spec_needs_two_models w srv kind models :
  key_configured w -> answers w (JArr models) -> length models < 2 ->
  main w (Invocation srv (SampleSpec kind))
  = Outcome
      (Uncaught (Exn ValueError "Sample larger than population or is negative"))
      []
      [request_to w (SampleSpec kind) (base_of srv) None].
Proof.
  intros Hk Hw Hn. rewrite main_configured, started_eq by done.
  simpl invoke. unfold sample_spec, get_models.
  erewrite bind_ok by (by apply call_answers).
  erewrite bind_ok by reflexivity.
  erewrite bind_ok by reflexivity.
  erewrite bind_raise; cycle 1.
  { unfold random_sample. rewrite length_seq.
    destruct (Nat.ltb_spec (length models) 2); [reflexivity | lia]. }
  reflexivity.
Qed.

Lemma sample_spec_needs_two_models_witness :
  main lonely_world (Invocation None (SampleSpec ForCalculate))
  = Outcome
      (Uncaught (Exn ValueError "Sample larger than population or is negative"))
      []
      [request_to lonely_world (SampleSpec ForCalculate) (base_of None) None].
Proof.
  apply (sample_spec_needs_two_models lonely_world None ForCalculate
           [JObj [("provider", JStr "OpenAI")]]).
  - exists "secret". split; [reflexivity | discriminate].
  - intros req. eexists. split; [reflexivity|]. split; [simpl; lia | reflexivity].
  - simpl. lia.
Defined.

(** X12: on a model list of at least two records of any shape,
    [sample-spec compare] prints the records at the two different positions
    that [random.sample] selects, unchanged and in sampling order, inside
    the fixed envelope with input_tokens 1000 and output_tokens 500. *)
Theorem sample_spec_compare_prints_two_records w srv models :
  key_configured w -> answers w (JArr models) -> 2 <= length models ->
  selection_ends (rand w) (patience w) (length models) ->
  exists a b ma mb,
    random_choice (rand w) (patience w) (seq 0 (length models)) 2
    = Some [a; b] /\
    a <> b /\
    models !! a = Some ma /\
    models !! b = Some mb /\
    main w (Invocation srv (SampleSpec ForCompare))
    = Outcome Finished
        [EchoJson
           (JObj [ ("models", JArr [ma; mb]);
                   ("input_tokens", JInt 1000);
                   ("output_tokens", JInt 500);
                   ("metadata", comparison_metadata) ])
           4]
        [request_to w (SampleSpec ForCompare) (base_of srv) None].
Proof.
  intros Hk Hw Hn Hends. set (n := length models) in *.
  destruct (random_choice_positions _ _ n Hn Hends)
    as (a & b & Hpos & Hab & Ha & Hb).
  destruct (lookup_lt_is_Some_2 models a Ha) as [ma Hma].
  destruct (lookup_lt_is_Some_2 models b Hb) as [mb Hmb].
  exists a, b, ma, mb. do 4 (split; [done|]).
  rewrite main_configured, started_eq by done.
  simpl invoke. unfold sample_spec, get_models.
  erewrite bind_ok by (by apply call_answers).
  erewrite bind_ok by reflexivity.
  erewrite bind_ok by reflexivity.
  erewrite bind_ok; cycle 1.
  { apply random_sample_ends; [by rewrite length_seq|].
    simpl length. fold n. exact Hpos. }
  erewrite bind_ok; cycle 1.
  { unfold deref_all. simpl. rewrite Hma, Hmb. reflexivity. }
  reflexivity.
Qed.

Lemma sample_spec_compare_prints_two_records_witness :
  exists a b ma mb,
    random_choice (rand crowded_world) (patience crowded_world)
      (seq 0 (length crowded_models)) 2 = Some [a; b] /\
    a <> b /\
    crowded_models !! a = Some ma /\
    crowded_models !! b = Some mb /\
    main crowded_world (Invocation None (SampleSpec ForCompare))
    = Outcome Finished
        [EchoJson
           (JObj [ ("models", JArr [ma; mb]);
                   ("input_tokens", JInt 1000);
                   ("output_tokens", JInt 500);
                   ("metadata", comparison_metadata) ])
           4]
        [request_to crowded_world (SampleSpec ForCompare) (base_of None) None].
Proof.
  apply (sample_spec_compare_prints_two_records crowded_world None crowded_models).
  - exists "secret". split; [reflexivity | discriminate].
  - intros req. eexists. split; [reflexivity|]. split; [simpl; lia | reflexivity].
  - unfold crowded_models. rewrite length_map, length_seq. lia.
  - right. split; [simpl; lia|]. exists 2. split; [simpl; lia|].
    unfold crowded_models. rewrite length_map, length_seq.
    vm_compute. discriminate.
Defined.

(** Twenty-two models and the draws 3, 3, 7: the records at positions 3
    and 7 are printed. *)
Example sample_spec_compare_large :
  printed (main crowded_world (Invocation None (SampleSpec ForCompare)))
  = [ EchoJson
        (JObj [ ("models", JArr [JObj [("id", JInt 3)]; JObj [("id", JInt 7)]]);
                ("input_tokens", JInt 1000);
                ("output_tokens", JInt 500);
                ("metadata", comparison_metadata) ])
        4 ].
Proof. reflexivity. Qed.

(** ** The search string of list-models *)

(** X13: [list-models] reads its search string up to letter case only: two
    search strings that differ in case alone give the same run, whatever the
    service answers. *)
Theorem list_models_ignores_case_of_search w st s1 s2 :
  ci_equal s1 s2 -> list_models w s1 st = list_models w s2 st.
Proof.
  intros H. apply lower_eq_iff in H. unfold list_models. simpl truthy.
  destruct (String.eqb_spec s1 "") as [-> | H1].
  - assert (s2 = "") as -> by (apply lower_empty_iff; by rewrite <- H).
    done.
  - destruct (String.eqb_spec s2 "") as [-> | H2].
    + destruct H1. by apply lower_empty_iff.
    + simpl negb. cbv iota. by rewrite H.
Qed.

Lemma list_models_ignores_case_of_search_witness :
  list_models demo_world "GpT" initial_state
  = list_models demo_world "gpt" initial_state.
Proof.
  apply (list_models_ignores_case_of_search demo_world initial_state).
  apply lower_eq_iff. reflexivity.
Defined.

(** ** The order of the providers table *)

Lemma filter_filter {A} (f g : A -> bool) l :
  List.filter f (List.filter g l) = List.filter (fun x => g x && f x) l.
Proof.
  induction l as [|x l IH]; simpl; [done|].
  destruct (g x); simpl; [|done]. destruct (f x); by rewrite IH.
Qed.

Lemma filter_all {A} (f : A -> bool) l :
  (forall x, f x = true) -> List.filter f l = l.
Proof.
  intros H. induction l as [|x l IH]; simpl; [done|]. by rewrite H, IH.
Qed.

Lemma tally_incr_key_list p cs :
  map fst (tally_incr p cs)
  = if bool_decide (p ∈ map fst cs) then map fst cs else map fst cs ++ [p].
Proof.
  induction cs as [|[q n] cs IH]; simpl; [done|].
  destruct (decide (q = p)) as [-> | Hne]; simpl.
  - rewrite bool_decide_eq_true_2 by (apply elem_of_cons; by left). done.
  - rewrite IH. destruct (decide (p ∈ map fst cs)) as [Hin | Hin].
    + rewrite !bool_decide_eq_true_2; [done | by apply elem_of_cons; right | done].
    + rewrite !bool_decide_eq_false_2; [done | | done].
      rewrite elem_of_cons. intros [? | ?]; congruence.
Qed.

(** The keys of the tally: the ones it started with, then the new names in
    the order in which they first occur. *)
Lemma tally_key_order ps cs :
  map fst (tally ps cs)
  = map fst cs
    ++ List.filter (fun q => negb (bool_decide (q ∈ map fst cs))) (first_seen ps).
Proof.
  revert cs. induction ps as [|p ps IH]; intros cs; simpl.
  - by rewrite app_nil_r.
  - rewrite IH, tally_incr_key_list.
    destruct (decide (p ∈ map fst cs)) as [Hin | Hin].
    + rewrite !bool_decide_eq_true_2 by done. simpl. f_equal.
      rewrite filter_filter. apply filter_ext. intros q.
      destruct (String.eqb_spec q p) as [-> | Hq]; simpl; [|done].
      by rewrite bool_decide_eq_true_2.
    + rewrite !bool_decide_eq_false_2 by done. simpl.
      rewrite <- app_assoc. simpl. do 2 f_equal.
      rewrite filter_filter. apply filter_ext. intros q.
      destruct (String.eqb_spec q p) as [-> | Hq]; simpl.
      * rewrite bool_decide_eq_true_2; [done|].
        apply elem_of_app. right. apply elem_of_cons. by left.
      * destruct (decide (q ∈ map fst cs)) as [Hq' | Hq'].
        -- rewrite !bool_decide_eq_true_2; [done | done |].
           apply elem_of_app. by left.
        -- rewrite !bool_decide_eq_false_2; [done | done |].
           rewrite elem_of_app, list_elem_of_singleton. tauto.
Qed.

(** X14: the mapping returned by [get_providers] lists the providers in the
    order in which they first appear in the model list; the rows of the
    [list-providers] table follow that order. *)
Theorem get_providers_keeps_order_of_first_appearance w st st1 models :
  get_models w (env_api_key w) st = (Ok (JArr models), st1) ->
  Forall has_text_provider models ->
  exists counts,
    get_providers w (env_api_key w) st = (Ok counts, st1) /\
    map fst counts = map JStr (first_seen (providers_of models)).
Proof.
  intros Hget Hp. eexists. split; [by apply get_providers_run|].
  rewrite as_counts_keys, tally_key_order. simpl. f_equal.
  apply filter_all. by intros q.
Qed.

Lemma get_providers_keeps_order_of_first_appearance_witness :
  exists counts,
    get_providers demo_world (env_api_key demo_world) initial_state
    = (Ok counts,
       after_request initial_state
         (Request GET "https://agentcomparer.com/api/models/list"
                  (Some "secret") None)) /\
    map fst counts = map JStr (first_seen (providers_of demo_models)).
Proof.
  apply (get_providers_keeps_order_of_first_appearance demo_world initial_state).
  - reflexivity.
  - repeat constructor; by eexists.
Defined.

(** ** Records that already carry token counts *)

Lemma dict_set_key_list k v d :
  dict_keys (dict_set k v d)
  = if bool_decide (k ∈ dict_keys d) then dict_keys d else dict_keys d ++ [k].
Proof.
  unfold dict_keys. induction d as [|[q x] d IH]; simpl; [done|].
  destruct (String.eqb_spec k q) as [-> | Hne]; simpl.
  - rewrite bool_decide_eq_true_2 by (apply elem_of_cons; by left). done.
  - rewrite IH. destruct (decide (k ∈ map fst d)) as [Hin | Hin].
    + rewrite !bool_decide_eq_true_2; [done | by apply elem_of_cons; right | done].
    + rewrite !bool_decide_eq_false_2; [done | | done].
      rewrite elem_of_cons. intros [? | ?]; congruence.
Qed.

Lemma dict_set_keys_NoDup k v d :
  NoDup (dict_keys d) -> NoDup (dict_keys (dict_set k v d)).
Proof.
  intros H. rewrite dict_set_key_list. case_bool_decide; [done|].
  apply NoDup_app. split; [done|]. split; [|apply NoDup_singleton].
  intros x Hx Hk. apply list_elem_of_singleton in Hk. by subst.
Qed.

(** X15: writing the token counts into a record, as [sample-spec calculate]
    does, keeps the keys of the record distinct and in their order: a token
    key that the record already has is overwritten in its place, one that it
    lacks is appended. *)
Theorem with_tokens_overwrites_in_place input output d :
  NoDup (dict_keys d) ->
  NoDup (dict_keys (with_tokens input output d)) /\
  exists extra,
    dict_keys (with_tokens input output d) = dict_keys d ++ extra /\
    forall k, k ∈ extra ->
              (k = "input_tokens" \/ k = "output_tokens") /\ k ∉ dict_keys d.
Proof.
  intros Hd. unfold with_tokens, dict_update. simpl. split.
  - by do 2 apply dict_set_keys_NoDup.
  - rewrite !dict_set_key_list.
    destruct (decide ("input_tokens" ∈ dict_keys d)) as [Hi | Hi];
      [rewrite (bool_decide_eq_true_2 _ Hi)
      |rewrite (bool_decide_eq_false_2 _ Hi)];
      case_bool_decide as Ho.
    + exists []. rewrite app_nil_r. split; [done|]. by intros k ?%elem_of_nil.
    + exists ["output_tokens"]. split; [done|].
      intros k ->%list_elem_of_singleton. auto.
    + exists ["input_tokens"]. split; [done|].
      intros k ->%list_elem_of_singleton. auto.
    + exists ["input_tokens"; "output_tokens"]. rewrite <- app_assoc.
      split; [done|]. intros k Hk.
      apply elem_of_cons in Hk as [-> | ->%list_elem_of_singleton]; [auto|].
      split; [auto|]. intros Hin. apply Ho. apply elem_of_app. by left.
Qed.

Lemma with_tokens_overwrites_in_place_witness :
  NoDup (dict_keys (with_tokens 2000 1000
                      [("provider", JStr "OpenAI"); ("input_tokens", JInt 5)])) /\
  exists extra,
    dict_keys (with_tokens 2000 1000
                 [("provider", JStr "OpenAI"); ("input_tokens", JInt 5)])
    = dict_keys [("provider", JStr "OpenAI"); ("input_tokens", JInt 5)] ++ extra /\
    forall k, k ∈ extra ->
              (k = "input_tokens" \/ k = "output_tokens") /\
              k ∉ dict_keys [("provider", JStr "OpenAI"); ("input_tokens", JInt 5)].
Proof.
  apply (with_tokens_overwrites_in_place 2000 1000
           [("provider", JStr "OpenAI"); ("input_tokens", JInt 5)]).
  simpl. apply NoDup_cons. split.
  - intros H. apply list_elem_of_singleton in H. discriminate.
  - apply NoDup_singleton.
Defined.

(** A record with a stale input count. *)
Example with_tokens_stale :
  with_tokens 2000 1000 [("provider", JStr "OpenAI"); ("input_tokens", JInt 5)]
  = [ ("provider", JStr "OpenAI"); ("input_tokens", JInt 2000);
      ("output_tokens", JInt 1000) ].
Proof. reflexivity. Qed.

(** ** Answers that are not JSON *)

Lemma call_garbles w key meth path payload st why :
  garbles w why ->
  call w key meth path payload st
  = (Raise (Exn ResponseJSONError why),
     after_request st (Request meth (base_url st ++ path) key payload)).
Proof.
  intros H. destruct (H (Request meth (base_url st ++ path) key payload))
    as (r & Hr & Hs & Hv).
  rewrite (surjective_pairing (call w key meth path payload st)), call_state.
  f_equal. unfold call, session_send, raise_for_status, response_json.
  unfold bind, get_base_url. rewrite Hr.
  destruct (_ && _) eqn:E.
  - apply andb_true_iff in E as [Hlo Hhi].
    apply Nat.leb_le in Hlo. apply Nat.ltb_lt in Hhi. lia.
  - unfold ret. by rewrite Hv.
Qed.

(** X16: in [compare] and [calculate] the clause for JSON errors comes first
    and covers the client call as well.  When the spec file is fine and the
    answer of the service is not JSON, the run therefore ends with the error
    about reading the input file, after the request was made. *)
Theorem undecodable_answer_is_reported_as_file_error
    w srv spec contents data why :
  key_configured w ->
  fs w spec = Regular contents ->
  json_loads w contents = Parsed data ->
  garbles w why ->
  main w (Invocation srv (Compare spec))
  = Outcome (ErrorMessage ("Error reading input file: " ++ why)) []
      [Request POST (base_of srv ++ "/api/agents/compare") (env_api_key w)
               (json_arg data)] /\
  main w (Invocation srv (Calculate spec))
  = Outcome (ErrorMessage ("Error reading input file: " ++ why)) []
      [Request POST (base_of srv ++ "/api/agents/calculate") (env_api_key w)
               (json_arg data)].
Proof.
  intros Hk Hf Hj Hw. rewrite !main_configured, started_eq by done.
  simpl invoke. unfold compare, calculate, compare_models, calculate_price.
  erewrite !bind_ok by (by eapply path_exists_regular).
  split.
  - erewrite try_except_raise; cycle 1.
    { erewrite bind_ok by (by eapply json_load_parsed).
      erewrite bind_raise; [reflexivity | by apply call_garbles]. }
    reflexivity.
  - erewrite try_except_raise; cycle 1.
    { erewrite bind_ok by (by eapply json_load_parsed).
      erewrite bind_raise; [reflexivity | by apply call_garbles]. }
    reflexivity.
Qed.

Lemma undecodable_answer_is_reported_as_file_error_witness :
  main garbling_world (Invocation None (Compare "empty.json"))
  = Outcome (ErrorMessage
               ("Error reading input file: "
                ++ "Expecting value: line 1 column 1 (char 0)")) []
      [Request POST (base_of None ++ "/api/agents/compare")
               (env_api_key garbling_world) (json_arg (JObj []))] /\
  main garbling_world (Invocation None (Calculate "empty.json"))
  = Outcome (ErrorMessage
               ("Error reading input file: "
                ++ "Expecting value: line 1 column 1 (char 0)")) []
      [Request POST (base_of None ++ "/api/agents/calculate")
               (env_api_key garbling_world) (json_arg (JObj []))].
Proof.
  apply (undecodable_answer_is_reported_as_file_error garbling_world None
           "empty.json" "{}" (JObj [])
           "Expecting value: line 1 column 1 (char 0)").
  - exists "secret". split; [reflexivity | discriminate].
  - reflexivity.
  - reflexivity.
  - intros req. eexists. split; [reflexivity|]. split; [simpl; lia | reflexivity].
Defined.
